(** * migrations-tool: resolution and execution engine

    A shallow embedding of [src/migrations_tool/migration.py] and the
    properties of its resolver, executor, ledger and status report.

    Python values are modelled as follows.
    - [str] is [string]; Python compares strings by code point, which for
      UTF-8 encoded text is the byte-wise lexicographic order of
      [String.compare].
    - The [migration_history] table is a finite map from its primary key
      [filename] to [executed_at].
    - Exceptions are values of [exn]; a computation that may raise returns a
      [result].
    - Methods of [MigrationTool] are state transformers over a [world]: the
      database behind the engine, what that engine commits of a schema change
      before the transaction ends, the migrations directory, the wall clock
      and the trace of the units started and finished. *)

From Stdlib Require Import ZArith String Ascii List.
From stdpp Require Import base option list sorting gmap strings.

Local Open Scope Z_scope.

(** ** Exceptions and results *)

Record exn := Exn {
  exn_type : string;
  exn_msg : string;
  exn_notes : list string
}.

Definition ValueError (msg : string) : exn := Exn "ValueError" msg [].
Definition TypeError (msg : string) : exn := Exn "TypeError" msg [].
Definition FileNotFoundError (msg : string) : exn := Exn "FileNotFoundError" msg [].
Definition OperationalError (msg : string) : exn := Exn "OperationalError" msg [].
Definition IntegrityError (msg : string) : exn := Exn "IntegrityError" msg [].
Definition InvalidRequestError (msg : string) : exn := Exn "InvalidRequestError" msg [].
Definition MigrationsToolError (msg : string) : exn := Exn "MigrationsToolError" msg [].
Definition OverflowError (msg : string) : exn := Exn "OverflowError" msg [].
Definition OSError (msg : string) : exn := Exn "OSError" msg [].
Definition ImportError (msg : string) : exn := Exn "ImportError" msg [].

(** [e.add_note(note)] *)
Definition add_note (e : exn) (note : string) : exn :=
  {| exn_type := exn_type e; exn_msg := exn_msg e;
     exn_notes := exn_notes e ++ [note] |}.

Inductive result (A : Type) : Type :=
| Ok (a : A)
| Raise (e : exn).
Arguments Ok {A} a.
Arguments Raise {A} e.

Definition result_bind {A B} (r : result A) (k : A → result B) : result B :=
  match r with
  | Ok a => k a
  | Raise e => Raise e
  end.

(** ** Strings and lists as Python uses them *)

(** [s.startswith(p)] *)
Definition startswith (s p : string) : bool := String.prefix p s.

(** [s.endswith(p)] *)
Definition endswith (s p : string) : bool := String.prefix (String.rev p) (String.rev s).

(** [s.replace(old, new)] for one-character [old] and [new]. *)
Fixpoint replace_char (old new : ascii) (s : string) : string :=
  match s with
  | EmptyString => EmptyString
  | String c s' =>
      String (if Ascii.eqb c old then new else c) (replace_char old new s')
  end.

(** Position of the first occurrence of [sep] in [s], scanning from the left. *)
Fixpoint find_sep (sep s : string) : option nat :=
  if String.prefix sep s then Some 0%nat
  else match s with
       | EmptyString => None
       | String _ s' => S <$> find_sep sep s'
       end.

Fixpoint drop_string (n : nat) (s : string) : string :=
  match n, s with
  | O, _ => s
  | S n', String _ s' => drop_string n' s'
  | S _, EmptyString => EmptyString
  end.

Fixpoint take_string (n : nat) (s : string) : string :=
  match n, s with
  | O, _ => EmptyString
  | S n', String c s' => String c (take_string n' s')
  | S _, EmptyString => EmptyString
  end.

(** [s.split(sep, maxsplit=1)] for a non-empty separator: at most two parts. *)
Definition split1 (sep s : string) : list string :=
  match find_sep sep s with
  | Some i => [take_string i s; drop_string (i + String.length sep) s]
  | None => [s]
  end.

(** [sorted(names)]: the ascending rearrangement under the string order.
    Python's sort is stable; on strings, where elements that compare equal are
    identical, the ascending rearrangement is unique. *)
Definition sorted (l : list string) : list string := merge_sort String.le l.

(** [l.index(x)]: position of the first occurrence; [ValueError] when absent.
    The text of the message is the interpreter's and varies with its version;
    nothing below depends on it. *)
Fixpoint list_index (x : string) (l : list string) : result nat :=
  match l with
  | [] => Raise (ValueError "list.index(x): x not in list")
  | y :: l' =>
      if decide (y = x) then Ok 0%nat
      else result_bind (list_index x l') (λ i, Ok (S i))
  end.

(** A list comprehension [[f for f in l if p(f)]] whose condition may raise. *)
Fixpoint comprehension_if (p : string → result bool) (l : list string)
  : result (list string) :=
  match l with
  | [] => Ok []
  | f :: l' =>
      result_bind (p f) (λ b,
      result_bind (comprehension_if p l') (λ r,
      Ok (if b then f :: r else r)))
  end.

(** [if target_filename:] the target when it is truthy; [None] and [""]
    are falsy. *)
Definition truthy_str (s : option string) : option string :=
  match s with
  | None => None
  | Some EmptyString => None
  | Some t => Some t
  end.

(** A list built by a comprehension whose element expression may raise. *)
Fixpoint comprehension_map {A B} (f : A → result B) (l : list A) : result (list B) :=
  match l with
  | [] => Ok []
  | x :: l' =>
      result_bind (f x) (λ y,
      result_bind (comprehension_map f l') (λ r, Ok (y :: r)))
  end.

(** Truthiness of an optional integer: [None] and [0] are falsy. *)
Definition truthy_int (n : option Z) : bool :=
  match n with
  | None => false
  | Some 0 => false
  | Some _ => true
  end.

(** ** Timestamps *)

(** A [datetime] in UTC. Python keeps the fields within the ranges of
    [valid_datetime]. *)
Record datetime := Datetime {
  year : Z; month : Z; day : Z;
  hour : Z; minute : Z; second : Z; microsecond : Z
}.

Definition valid_datetime (t : datetime) : Prop :=
  1000 ≤ year t ≤ 9999 ∧ 1 ≤ month t ≤ 12 ∧ 1 ≤ day t ≤ 31 ∧
  0 ≤ hour t ≤ 23 ∧ 0 ≤ minute t ≤ 59 ∧ 0 ≤ second t ≤ 59 ∧
  0 ≤ microsecond t ≤ 999999.

(** [t1 < t2] on datetimes of one time zone: field by field, most
    significant first. *)
Definition datetime_compare (t1 t2 : datetime) : comparison :=
  match year t1 ?= year t2 with
  | Eq =>
    match month t1 ?= month t2 with
    | Eq =>
      match day t1 ?= day t2 with
      | Eq =>
        match hour t1 ?= hour t2 with
        | Eq =>
          match minute t1 ?= minute t2 with
          | Eq =>
            match second t1 ?= second t2 with
            | Eq => microsecond t1 ?= microsecond t2
            | c => c
            end
          | c => c
          end
        | c => c
        end
      | c => c
      end
    | c => c
    end
  | c => c
  end.

Definition datetime_lt (t1 t2 : datetime) : Prop := datetime_compare t1 t2 = Lt.

Definition digit (d : Z) : ascii := ascii_of_N (Z.to_N (48 + d)).

(** A number as [width] decimal digits, zero padded, most significant first. *)
Fixpoint zero_pad (width : nat) (n : Z) : string :=
  match width with
  | O => EmptyString
  | S w => String (digit (n / 10 ^ Z.of_nat w)) (zero_pad w (n mod 10 ^ Z.of_nat w))
  end.

(** The year as the C library writes it for [%Y]: in decimal without
    padding, so with fewer than four digits below the year 1000. *)
Definition year_digits (y : Z) : string :=
  if y <? 10 then zero_pad 1 y
  else if y <? 100 then zero_pad 2 y
  else if y <? 1000 then zero_pad 3 y
  else zero_pad 4 y.

(** One [strftime] directive. *)
Definition directive (c : ascii) (t : datetime) : string :=
  if Ascii.eqb c "Y" then year_digits (year t)
  else if Ascii.eqb c "m" then zero_pad 2 (month t)
  else if Ascii.eqb c "d" then zero_pad 2 (day t)
  else if Ascii.eqb c "H" then zero_pad 2 (hour t)
  else if Ascii.eqb c "M" then zero_pad 2 (minute t)
  else if Ascii.eqb c "S" then zero_pad 2 (second t)
  else if Ascii.eqb c "f" then zero_pad 6 (microsecond t)
  else String "%" (String c EmptyString).

(** [t.strftime(fmt)] for the directives above; other characters are copied. *)
Fixpoint strftime (fmt : string) (t : datetime) : string :=
  match fmt with
  | EmptyString => EmptyString
  | String c fmt' =>
      if Ascii.eqb c "%" then
        match fmt' with
        | String d fmt'' => directive d t +:+ strftime fmt'' t
        | EmptyString => String c EmptyString
        end
      else String c (strftime fmt' t)
  end.

Definition DATETIME_FMT : string := "%Y%m%d_%H%M_%S%f".

(** ** Database, session and world *)

(** A forward or backward change of one migration file, acting on the part of
    the database that belongs to the application (tables, rows). It returns
    the state it leaves behind in the open transaction, also when it raises:
    that is what the statements after it in the transaction see. What of it
    outlives a rollback is the engine's matter ([commits_at_once] below). A
    change is taken not to touch the ledger table. *)
Definition capability (St : Type) : Type := St → result unit * St.

(** The [upgrade] and [downgrade] functions a migration file defines. *)
Record module_source (St : Type) := ModuleSource {
  src_upgrade : capability St;
  src_downgrade : capability St
}.
Arguments ModuleSource {St} _ _.
Arguments src_upgrade {St} _.
Arguments src_downgrade {St} _.

(** An entry of the migrations directory. [content] is what importing the
    path yields: the functions of the file, or the exception of a file that
    is not a module with both functions. *)
Record dir_entry (St : Type) := DirEntry {
  name : string;
  is_file : bool;
  content : result (module_source St)
}.
Arguments DirEntry {St} _ _ _.
Arguments name {St} _.
Arguments is_file {St} _.
Arguments content {St} _.

(** The database. [history] is the table [migration_history], absent before
    initialisation, keyed by [filename] with [executed_at] as value.
    [changelog] is a history variable: the changes of migration files that
    returned and whose unit of work was committed, in order, [(f, true)] for
    the forward change of [f] and [(f, false)] for its backward change. It is
    written in the transaction the change runs in and is committed or rolled
    back with it. *)
Record database (St : Type) := Database {
  schema : St;
  history : option (gmap string datetime);
  changelog : list (string * bool)
}.
Arguments Database {St} _ _ _.
Arguments schema {St} _.
Arguments history {St} _.
Arguments changelog {St} _.

(** An open unit of work: the state of the database as the transaction sees
    it, and the records added with [session.add] that are not yet flushed. *)
Record session (St : Type) := Session {
  conn : database St;
  new : list (string * datetime)
}.
Arguments Session {St} _ _.
Arguments conn {St} _.
Arguments new {St} _.

(** The two log lines of [lazy_execute] around each file. They are kept as
    the trace of what the executor started and finished; the other debug lines
    of the module are not modelled. *)
Inductive log_event : Type :=
| Starting (file : string) (upgrade : bool)
| Finished (file : string) (upgrade : bool).

(** What a [MigrationTool] acts on. [db] is the committed state, [txn] the
    open unit of work if any, [migrations_dir] the entries of the directory
    ([None]: it does not exist), [clock] what the successive calls of
    [datetime.now(UTC)] return, [ticks] how many were made and [log] the trace
    of the executor.

    [commits_at_once] is the database engine's treatment of the changes a
    migration function makes inside a transaction: from the committed schema
    before the call and the state the function left in the transaction, the
    committed schema right after the call. An engine with transactional DDL
    commits nothing before the transaction does, so it returns the first. An
    engine that commits schema changes as they are executed (SQLite as the
    default driver settings run it, MySQL) returns the committed schema with
    the schema changes of the second, and a rollback does not take them
    back. *)
Record world (St : Type) := World {
  db : database St;
  txn : option (session St);
  migrations_dir : option (list (dir_entry St));
  clock : nat → datetime;
  ticks : nat;
  log : list log_event;
  commits_at_once : St → St → St
}.
Arguments World {St} _ _ _ _ _ _ _.
Arguments db {St} _.
Arguments txn {St} _.
Arguments migrations_dir {St} _.
Arguments clock {St} _.
Arguments ticks {St} _.
Arguments log {St} _.
Arguments commits_at_once {St} _.

(** The engine rolls schema changes back with the transaction. *)
Definition transactional_ddl {St} (w : world St) : Prop :=
  ∀ committed left, commits_at_once w committed left = committed.

Definition set_db {St} (d : database St) (w : world St) : world St :=
  World d (txn w) (migrations_dir w) (clock w) (ticks w) (log w) (commits_at_once w).
Definition set_txn {St} (t : option (session St)) (w : world St) : world St :=
  World (db w) t (migrations_dir w) (clock w) (ticks w) (log w) (commits_at_once w).
Definition set_dir {St} (d : option (list (dir_entry St))) (w : world St) : world St :=
  World (db w) (txn w) d (clock w) (ticks w) (log w) (commits_at_once w).
Definition add_log {St} (e : log_event) (w : world St) : world St :=
  World (db w) (txn w) (migrations_dir w) (clock w) (ticks w) (log w ++ [e])
    (commits_at_once w).

(** A method: it returns or raises, and leaves a world behind either way. *)
Definition M (St A : Type) : Type := world St → result A * world St.

Definition ret {St A} (a : A) : M St A := λ w, (Ok a, w).
Definition raise {St A} (e : exn) : M St A := λ w, (Raise e, w).
Definition bind {St A B} (m : M St A) (k : A → M St B) : M St B :=
  λ w, match m w with
       | (Ok a, w') => k a w'
       | (Raise e, w') => (Raise e, w')
       end.
Definition lift {St A} (r : result A) : M St A := λ w, (r, w).

Notation "'let!' x ':=' m 'in' k" := (bind m (λ x, k))
  (at level 10, x pattern, m at level 100, k at level 200).
Notation "m ';;' k" := (bind m (λ _, k))
  (at level 100, k at level 200, right associativity).

(** [datetime.now(UTC)] *)
Definition datetime_now {St} : M St datetime :=
  λ w, (Ok (clock w (ticks w)),
        World (db w) (txn w) (migrations_dir w) (clock w) (S (ticks w)) (log w)
          (commits_at_once w)).

(** *** The session *)

Definition no_transaction : exn :=
  InvalidRequestError "no transaction is begun".

Definition no_such_table : exn :=
  OperationalError "no such table: migration_history".

(** The INSERT of one pending record. *)
Definition insert_row {St} (row : string * datetime) (d : database St)
  : result (database St) :=
  match history d with
  | None => Raise no_such_table
  | Some t =>
      match t !! row.1 with
      | Some _ =>
          Raise (IntegrityError "UNIQUE constraint failed: migration_history.filename")
      | None => Ok (Database (schema d) (Some (<[row.1 := row.2]> t)) (changelog d))
      end
  end.

Fixpoint insert_rows {St} (rows : list (string * datetime)) (d : database St)
  : result (database St) :=
  match rows with
  | [] => Ok d
  | row :: rows' => result_bind (insert_row row d) (insert_rows rows')
  end.

(** [session.flush()]: the pending records are written. *)
Definition flush {St} : M St unit :=
  λ w, match txn w with
       | None => (Raise no_transaction, w)
       | Some s =>
           match insert_rows (new s) (conn s) with
           | Ok d => (Ok (), set_txn (Some (Session d [])) w)
           | Raise e => (Raise e, w)
           end
       end.

(** [session.add(record)] *)
Definition session_add {St} (row : string * datetime) : M St unit :=
  λ w, match txn w with
       | None => (Raise no_transaction, w)
       | Some s => (Ok (), set_txn (Some (Session (conn s) (new s ++ [row]))) w)
       end.

(** [session.execute(sa.delete(MigrationHistory).where(filename == f))];
    the session is created with [autoflush=True]. *)
Definition execute_delete {St} (f : string) : M St unit :=
  flush ;;
  λ w, match txn w with
       | None => (Raise no_transaction, w)
       | Some s =>
           match history (conn s) with
           | None => (Raise no_such_table, w)
           | Some t =>
               (Ok (),
                set_txn (Some (Session
                  (Database (schema (conn s)) (Some (delete f t)) (changelog (conn s)))
                  (new s))) w)
           end
       end.

(** The rows of the table as the transaction sees them. *)
Definition execute_select {St} : M St (gmap string datetime) :=
  flush ;;
  λ w, match txn w with
       | None => (Raise no_transaction, w)
       | Some s =>
           match history (conn s) with
           | None => (Raise no_such_table, w)
           | Some t => (Ok t, w)
           end
       end.

(** A function of a loaded module called with the session: the change acts
    on the state the transaction sees, and is entered in the changelog of the
    transaction when it returns. What the engine commits of the change at
    once is part of the committed database from then on, whatever becomes of
    the transaction. *)
Definition call_with_session {St} (f : string) (upgrade : bool) (c : capability St)
  : M St unit :=
  λ w, match txn w with
       | None => (Raise no_transaction, w)
       | Some s =>
           let '(r, sch) := c (schema (conn s)) in
           let cl := match r with
                     | Ok _ => changelog (conn s) ++ [(f, upgrade)]
                     | Raise _ => changelog (conn s)
                     end in
           let committed :=
             Database (commits_at_once w (schema (db w)) sch)
               (history (db w)) (changelog (db w)) in
           (r, set_txn (Some (Session (Database sch (history (conn s)) cl) (new s)))
                 (set_db committed w))
       end.

(** [with self.Session.begin() as session: body]: a transaction is opened;
    when the body returns, the session is flushed and committed; when the body
    or the flush raises, the transaction is rolled back and the exception
    propagates unchanged. The rollback discards what the transaction holds;
    what the engine committed while it ran ([call_with_session]) stays. *)
Definition Session_begin {St A} (body : M St A) : M St A :=
  λ w,
    let w0 := set_txn (Some (Session (db w) [])) w in
    match body w0 with
    | (Ok a, w1) =>
        match flush w1 with
        | (Ok _, w2) =>
            match txn w2 with
            | Some s => (Ok a, set_txn None (set_db (conn s) w2))
            | None => (Raise no_transaction, w2)
            end
        | (Raise e, w2) => (Raise e, set_txn None w2)
        end
    | (Raise e, w1) => (Raise e, set_txn None w1)
    end.

(** ** The ledger table *)

(** [Base.metadata.create_all(engine, checkfirst=...)]: with [checkfirst] the
    table is created only when absent; without it CREATE TABLE is issued
    whatever the database holds, and fails on a table that exists. *)
Definition metadata_create_all {St} (checkfirst : bool) : M St unit :=
  λ w, match history (db w) with
       | Some _ =>
           if checkfirst then (Ok (), w)
           else (Raise (OperationalError "table migration_history already exists"), w)
       | None =>
           (Ok (), set_db (Database (schema (db w)) (Some ∅) (changelog (db w))) w)
       end.

Definition create_history_table {St} : M St unit := metadata_create_all false.

Definition assert_history_table_exists {St} : M St unit :=
  λ w, match history (db w) with
       | Some _ => (Ok (), w)
       | None =>
           (Raise (MigrationsToolError
              "table `migration_history` is missing, call `migrate init`"), w)
       end.

(** [MigrationTool.__init__] *)
Definition MigrationTool_init {St} (should_create_history_table : bool) : M St unit :=
  λ w, match migrations_dir w with
       | None => (Raise (MigrationsToolError "directory not found"), w)
       | Some _ =>
           ((if should_create_history_table then create_history_table else ret ()) ;;
            assert_history_table_exists) w
       end.

Definition save_migration_history {St} (filename : string) : M St unit :=
  let! now := datetime_now in
  session_add (filename, now).

Definition delete_migration_history {St} (filename : string) : M St unit :=
  execute_delete filename.

(** ** Loading *)

(** A loaded module: its two functions, to be called with the session. *)
Record MigrationModule (St : Type) := Build_MigrationModule {
  upgrade : M St unit;
  downgrade : M St unit
}.
Arguments Build_MigrationModule {St} _ _.
Arguments upgrade {St} _.
Arguments downgrade {St} _.

(** What [load_migration_module] raises for a path that does not exist.
    [spec_from_file_location] picks the loader by the suffix of the path and
    returns [None] when there is none for it, on which the function raises
    its [TypeError]; with a loader, running it fails on the missing file. The
    messages carry the name of the file, not its whole path. *)
Definition missing_module (filename : string) : exn :=
  if endswith filename ".py" || endswith filename ".pyc" then
    FileNotFoundError filename
  else if endswith filename ".so" then ImportError filename
  else TypeError ("failed to create spec for : " +:+ filename).

Definition load_migration_module {St} (filename : string) : M St (MigrationModule St) :=
  λ w, match migrations_dir w with
       | None => (Raise (missing_module filename), w)
       | Some entries =>
           match list_find (λ e, name e = filename) entries with
           | None => (Raise (missing_module filename), w)
           | Some (_, e) =>
               match content e with
               | Raise err => (Raise err, w)
               | Ok src =>
                   (Ok (Build_MigrationModule
                          (call_with_session filename true (src_upgrade src))
                          (call_with_session filename false (src_downgrade src))), w)
               end
           end
       end.

Definition load {St} (filename : string) : M St (MigrationModule St) :=
  load_migration_module filename.

(** ** Discovery and the ledger listing *)

(** The condition of the comprehension in [list_existing_migration_files]. *)
Definition is_migration_file {St} (f : dir_entry St) : Prop :=
  is_file f = true ∧ startswith (name f) "__" = false ∧ name f ≠ ".gitkeep".

Global Instance is_migration_file_dec {St} (f : dir_entry St) :
  Decision (is_migration_file f).
Proof. unfold is_migration_file. apply _. Defined.

Definition list_existing_migration_files {St} : M St (list string) :=
  λ w, match migrations_dir w with
       | None => (Raise (FileNotFoundError "migrations directory"), w)
       | Some entries => (Ok (sorted (name <$> filter is_migration_file entries)), w)
       end.

Definition list_applied_migration_files {St} : M St (list string) :=
  Session_begin (let! t := execute_select in ret (sorted (elements (dom t)))).

(** ** Resolver *)

(** What [list_migrations_to_upgrade] computes from the two listings. *)
Definition resolveUpgrade (existing_files applied_files : list string)
    (target_filename : option string) : result (list string) :=
  let migrations := filter (λ f, f ∉ applied_files) existing_files in
  match truthy_str target_filename with
  | Some target =>
      if decide (target ∉ existing_files) then
        Raise (ValueError ("Target migration " +:+ target +:+ " not found"))
      else
        match list_index target existing_files with
        | Raise e =>
            Raise (add_note e ("Target migration " +:+ target +:+ " not found"))
        | Ok target_index =>
            comprehension_if
              (λ f, result_bind (list_index f existing_files)
                      (λ i, Ok (bool_decide (i ≤ target_index)%nat)))
              migrations
        end
  | None => Ok migrations
  end.

Definition list_migrations_to_upgrade {St} (target_filename : option string)
  : M St (list string) :=
  let! applied_files := list_applied_migration_files in
  let! existing_files := list_existing_migration_files in
  lift (resolveUpgrade existing_files applied_files target_filename).

(** What [list_migrations_to_downgrade] computes from the two listings. *)
Definition resolveDowngrade (existing_files applied_files : list string)
    (target_filename : option string) : result (list string) :=
  let migrations := reverse applied_files in
  match truthy_str target_filename with
  | Some target =>
      if decide (target ∉ existing_files) then
        Raise (ValueError
                 ("Target migration " +:+ target +:+ " not found in existing_files"))
      else
        match list_index target migrations with
        | Raise e =>
            Raise (add_note e
                     ("Target migration " +:+ target +:+ " not found in applied files"))
        | Ok target_index =>
            Ok (if decide (target ∈ migrations) then take target_index migrations
                else migrations)
        end
  | None => Ok migrations
  end.

Definition list_migrations_to_downgrade {St} (target_filename : option string)
  : M St (list string) :=
  let! applied_files := list_applied_migration_files in
  let! existing_files := list_existing_migration_files in
  lift (resolveDowngrade existing_files applied_files target_filename).

(** The two failures of target validation, as the messages tell them apart. *)
Definition TargetNotFound (target : string) (e : exn) : Prop :=
  exn_type e = "ValueError" ∧
  (exn_msg e = "Target migration " +:+ target +:+ " not found" ∨
   exn_msg e = "Target migration " +:+ target +:+ " not found in existing_files").

Definition TargetNotApplied (target : string) (e : exn) : Prop :=
  exn_type e = "ValueError" ∧
  exn_notes e = ["Target migration " +:+ target +:+ " not found in applied files"].

(** ** Executor *)

Definition apply {St} (filename : string) (function_to_apply : M St unit)
    (db_update : string → M St unit) : M St string :=
  Session_begin (function_to_apply ;; db_update filename) ;;
  ret filename.

(** One iteration of the loop of [lazy_execute], up to its [yield]. *)
Definition execute_file {St} (upgrade_flag : bool) (db_update : string → M St unit)
    (file : string) : M St string :=
  (λ w, (Ok (), add_log (Starting file upgrade_flag) w)) ;;
  let! module := load file in
  let function_to_apply := if upgrade_flag then upgrade module else downgrade module in
  apply file function_to_apply db_update.

(** The generator of [lazy_execute] driven until it is exhausted or raises,
    as [list(...)] and [process_migrations] drive it: the identifiers it
    yielded, and the exception that ended the iteration if there was one. *)
Fixpoint execute_loop {St} (upgrade_flag : bool) (db_update : string → M St unit)
    (files : list string) (w : world St) : (list string * option exn) * world St :=
  match files with
  | [] => (([], None), w)
  | file :: files' =>
      match execute_file upgrade_flag db_update file w with
      | (Ok yielded, w1) =>
          let '((ys, e), w2) :=
            execute_loop upgrade_flag db_update files'
              (add_log (Finished file upgrade_flag) w1) in
          ((yielded :: ys, e), w2)
      | (Raise e, w1) => (([], Some e), w1)
      end
  end.

Definition lazy_execute {St} (files : list string) (upgrade_flag : bool)
    (w : world St) : (list string * option exn) * world St :=
  let db_update :=
    if upgrade_flag then save_migration_history else delete_migration_history in
  execute_loop upgrade_flag db_update files w.

(** ** Generation *)

(** [session.execute(sa.text(''))], the body of both functions of the
    template: an empty statement changes nothing. *)
Definition execute_empty_text {St} : capability St := λ s, (Ok (), s).

Definition template {St} : module_source St :=
  ModuleSource execute_empty_text execute_empty_text.

(** The longest name of a directory entry, in bytes. *)
Definition NAME_MAX : nat := 255.

(** The part of a relative path before its first slash. *)
Fixpoint first_component (s : string) : string :=
  match s with
  | EmptyString => EmptyString
  | String c s' => if Ascii.eqb c "/" then EmptyString else String c (first_component s')
  end.

(** [(migrations_dir / filename).write_text(...)]. A name with a NUL is
    refused before the file system is asked. The directory holds files only
    at its top level: a name with a slash points into a directory that is
    taken not to exist. A name longer than [NAME_MAX] is refused by the file
    system. Otherwise the file is created, or replaced when it exists. *)
Definition write_text {St} (filename : string) (src : module_source St) : M St unit :=
  λ w,
    if bool_decide (Ascii.zero ∈ list_ascii_of_string filename) then
      (Raise (ValueError "embedded null byte"), w)
    else
      match migrations_dir w with
      | None => (Raise (FileNotFoundError filename), w)
      | Some entries =>
          if bool_decide (NAME_MAX < String.length (first_component filename))%nat then
            (Raise (OSError "File name too long"), w)
          else if bool_decide ("/"%char ∈ list_ascii_of_string filename) then
            (Raise (FileNotFoundError filename), w)
          else
            (Ok (),
             set_dir (Some (filter (λ e, name e ≠ filename) entries
                            ++ [DirEntry filename true (Ok src)])) w)
      end.

(** The name [generate_migration] gives the file it creates at [timestamp]. *)
Definition migration_filename (timestamp : datetime) (description : string) : string :=
  strftime DATETIME_FMT timestamp +:+ "__" +:+ replace_char " " "_" description
  +:+ ".py".

Definition generate_migration {St} (description : string) : M St string :=
  let! timestamp := datetime_now in
  let filename := migration_filename timestamp description in
  write_text filename template ;;
  ret filename.

(** ** Status *)

Definition get_current_revision {St} : M St string :=
  let! files := list_applied_migration_files in
  ret (match files with [] => "" | _ => List.last files "" end).

Record MigrationInfo := Build_MigrationInfo {
  info_filename : string;
  created_at : datetime;
  executed_at : option datetime
}.

(** [parse_filename]. [strptime] stands for [datetime.strptime]. *)
Definition parse_filename (strptime : string → string → result datetime)
    (filename : string) : result (datetime * string) :=
  let filename := List.hd "" (split1 "." filename) in
  match split1 "__" filename with
  | [datetime_str; description] =>
      result_bind (strptime datetime_str DATETIME_FMT) (λ created_at,
      Ok (created_at, description))
  | _ => Raise (ValueError "not enough values to unpack (expected 2, got 1)")
  end.

(** [SELECT ... ORDER BY filename] *)
Definition order_by_filename (t : gmap string datetime) : list (string * datetime) :=
  omap (λ f, (λ at_, (f, at_)) <$> t !! f) (sorted (elements (dom t))).

(** [LIMIT n] with [n] bound as a parameter, as in SQLite: the driver
    refuses an integer that does not fit 64 bits, and a negative [n] is no
    limit. *)
Definition sql_limit {A} (n : Z) (rows : list A) : result (list A) :=
  if (n <? - 2 ^ 63) || (2 ^ 63 <=? n) then
    Raise (OverflowError "Python int too large to convert to SQLite INTEGER")
  else Ok (if n <? 0 then rows else take (Z.to_nat n) rows).

(** The query of [list_all_migrations]. *)
Definition history_query (history_limit : option Z) (t : gmap string datetime)
  : result (list (string * datetime)) :=
  match history_limit with
  | Some n =>
      if n =? 0 then Ok (order_by_filename t)
      else
        result_bind (sql_limit n (reverse (order_by_filename t))) (λ subq,
        Ok (filter (λ row, row.1 ∈ subq.*1) (order_by_filename t)))
  | None => Ok (order_by_filename t)
  end.

Definition list_all_migrations {St} (strptime : string → string → result datetime)
    (history_limit : option Z) : M St (list MigrationInfo) :=
  let! rows := Session_begin (let! t := execute_select in
                              lift (history_query history_limit t)) in
  let! rv := lift (comprehension_map
                     (λ row : string * datetime,
                        result_bind (parse_filename strptime row.1) (λ p,
                        Ok (Build_MigrationInfo row.1 p.1 (Some row.2))))
                     rows) in
  let! pending := list_migrations_to_upgrade None in
  let! rv' := lift (comprehension_map
                      (λ file,
                         result_bind (parse_filename strptime file) (λ p,
                         Ok (Build_MigrationInfo file p.1 None)))
                      pending) in
  ret (rv ++ rv').

(** ** The ledger and the changes it accounts for *)

(** The identifiers that have a history record. *)
Definition recorded {St} (d : database St) : gset string :=
  match history d with
  | Some t => dom t
  | None => ∅
  end.

(** The files whose forward change is part of the state and has not been
    reverted since, read off the changelog. *)
Definition apply_change (acc : gset string) (c : string * bool) : gset string :=
  if c.2 then {[c.1]} ∪ acc else acc ∖ {[c.1]}.

Definition effective (cl : list (string * bool)) : gset string :=
  foldl apply_change ∅ cl.

Definition ledger_consistent {St} (d : database St) : Prop :=
  recorded d = effective (changelog d).

(** The worlds a tool can be in: from a database to which no migration has
    been applied, by the methods of the tool, one executor step at a time, and
    by changes to the files of the directory. *)
Inductive reachable {St} : world St → Prop :=
| reach_fresh w :
    recorded (db w) = ∅ → changelog (db w) = [] → reachable w
| reach_init w b :
    reachable w → reachable (MigrationTool_init b w).2
| reach_execute w file upgrade_flag :
    reachable w →
    reachable
      (execute_file upgrade_flag
         (if upgrade_flag then save_migration_history else delete_migration_history)
         file w).2
| reach_log w e :
    reachable w → reachable (add_log e w)
| reach_generate w description :
    reachable w → reachable (generate_migration description w).2
| reach_files w d :
    reachable w → reachable (set_dir d w).

(** ** A sample directory and database

    The schema is the list of the tables that exist. Three migration files
    create one table each; a fourth and a fifth fail half way, both with the
    same exception. The directory also holds the artefacts a working tree
    has next to them. The engine of the sample worlds commits schema changes
    at once, as the SQLite database of the test suite does; every change of
    the sample is a schema change. *)
Module Sample.

Local Open Scope string_scope.

Definition tables : Type := list string.

Definition create_table (n : string) : capability tables :=
  λ s, if decide (n ∈ s)
       then (Raise (OperationalError ("table " +:+ n +:+ " already exists")), s)
       else (Ok (), n :: s).

Definition drop_table (n : string) : capability tables :=
  λ s, if decide (n ∈ s)
       then (Ok (), filter (λ x, x ≠ n) s)
       else (Raise (OperationalError ("no such table: " +:+ n)), s).

Definition broken : capability tables :=
  λ s, (Raise (OperationalError "incomplete input"), "half_made" :: s).

(** The two kinds of engine. *)
Definition at_once : tables → tables → tables := λ _ left, left.
Definition with_transaction : tables → tables → tables := λ committed _, committed.

Definition sample_clock : nat → datetime :=
  λ n, Datetime 2024 1 15 10 30 0 (Z.of_nat n).

Definition m1 : string := "20240115_1000_00000001__first.py".
Definition m2 : string := "20240115_1100_00000001__second.py".
Definition m3 : string := "20240115_1200_00000001__third.py".
Definition bad1 : string := "20240115_1300_00000001__bad_one.py".
Definition bad2 : string := "20240115_1400_00000001__bad_two.py".

Definition not_a_module : result (module_source tables) :=
  Raise (TypeError "failed to create spec").

Definition sample_dir : list (dir_entry tables) :=
  [DirEntry ".gitkeep" true not_a_module;
   DirEntry m3 true (Ok (ModuleSource (create_table "t3") (drop_table "t3")));
   DirEntry ".DS_Store" true not_a_module;
   DirEntry m1 true (Ok (ModuleSource (create_table "t1") (drop_table "t1")));
   DirEntry "__pycache__" false not_a_module;
   DirEntry "__init__.py" true not_a_module;
   DirEntry bad2 true (Ok (ModuleSource broken (drop_table "t5")));
   DirEntry m2 true (Ok (ModuleSource (create_table "t2") (drop_table "t2")));
   DirEntry bad1 true (Ok (ModuleSource broken (drop_table "t4")))].

(** Only the three good files. *)
Definition good_dir : list (dir_entry tables) :=
  filter (λ e, name e ∈ [m1; m2; m3]) sample_dir.

(** Before [migrate init]: no ledger table. *)
Definition uninitialised : world tables :=
  World (Database [] None []) None (Some sample_dir) sample_clock 0 [] at_once.

(** After [migrate init] on an empty directory: an empty ledger. *)
Definition w0 : world tables :=
  World (Database [] (Some ∅) []) None (Some sample_dir) sample_clock 0 [] at_once.

Definition good_world : world tables := set_dir (Some good_dir) w0.

(** The same on an engine with transactional DDL. *)
Definition transactional_world : world tables :=
  World (Database [] (Some ∅) []) None (Some sample_dir) sample_clock 0 []
    with_transaction.

(** A [strptime] for the fixed-width stamps that [DATETIME_FMT] writes. *)
Definition digit_value (c : ascii) : option Z :=
  let n := Z.of_N (N_of_ascii c) in
  if ((48 <=? n)%Z && (n <=? 57)%Z)%bool then Some (n - 48) else None.

Fixpoint number (s : string) (acc : Z) : option Z :=
  match s with
  | EmptyString => Some acc
  | String c s' =>
      match digit_value c with
      | Some d => number s' (10 * acc + d)
      | None => None
      end
  end.

Definition field (start len : nat) (s : string) : option Z :=
  number (String.substring start len s) 0.

Definition strptime (s fmt : string) : result datetime :=
  let mismatch := ValueError "time data does not match format" in
  if decide (fmt = DATETIME_FMT ∧ String.length s = 22%nat ∧
             String.substring 8 1 s = "_" ∧ String.substring 13 1 s = "_") then
    match field 0 4 s, field 4 2 s, field 6 2 s, field 9 2 s, field 11 2 s,
          field 14 2 s, field 16 6 s with
    | Some y, Some m, Some d, Some H, Some M', Some S', Some f =>
        Ok (Datetime y m d H M' S' f)
    | _, _, _, _, _, _, _ => Raise mismatch
    end
  else Raise mismatch.

End Sample.

(** ** The commands that call the tool ([cli.py])

    What the commands print is left out; what they do to the world and what
    they raise is kept. *)

Definition IndexError (msg : string) : exn := Exn "IndexError" msg [].

(** [l[i]], with Python's negative indices counting from the end. *)
Definition py_getitem (l : list string) (i : Z) : result string :=
  let n := Z.of_nat (length l) in
  let j := if i <? 0 then i + n else i in
  if (0 <=? j) && (j <? n) then
    match l !! Z.to_nat j with
    | Some x => Ok x
    | None => Raise (IndexError "list index out of range")
    end
  else Raise (IndexError "list index out of range").

(** [get_tool(init)]: a tool is constructed for every command. *)
Definition get_tool {St} (init : bool) : M St unit := MigrationTool_init init.

(** [list(generator)]: the items, or the exception that ended the iteration. *)
Definition list_of {St} (g : world St → (list string * option exn) * world St)
  : M St (list string) :=
  λ w, match g w with
       | ((ys, None), w') => (Ok ys, w')
       | ((_, Some e), w') => (Raise e, w')
       end.

(** The [init] command. *)
Definition cli_init {St} : M St unit :=
  get_tool true ;;
  generate_migration "first_migration_empty" ;;
  let! files := list_migrations_to_upgrade None in
  list_of (lazy_execute files true) ;;
  ret ().

(** The plan of the [downgrade] command: its body up to and including the
    call of [list_migrations_to_downgrade]. Without [--filename] the target is
    taken [version_to_downgrade_count + 1] places from the end of the applied
    list. *)
Definition cli_downgrade_files {St} (filename : option string)
    (version_to_downgrade_count : Z) : M St (list string) :=
  get_tool false ;;
  let! target_filename :=
    match truthy_str filename with
    | Some f => ret f
    | None =>
        let version_to_downgrade_count := version_to_downgrade_count + 1 in
        let! applied := list_applied_migration_files in
        lift (py_getitem applied (- version_to_downgrade_count))
    end in
  list_migrations_to_downgrade (Some target_filename).

(** * Properties *)

(** ** Sorting *)

Lemma sorted_Sorted l : Sorted String.le (sorted l).
Proof. unfold sorted. apply Sorted_merge_sort. apply _. Qed.

Lemma sorted_StronglySorted l : StronglySorted String.le (sorted l).
Proof. apply Sorted_StronglySorted; [apply _ | apply sorted_Sorted]. Qed.

Lemma sorted_Permutation l : sorted l ≡ₚ l.
Proof. apply merge_sort_Permutation. Qed.

Lemma elem_of_sorted x l : x ∈ sorted l ↔ x ∈ l.
Proof. by rewrite sorted_Permutation. Qed.

Lemma sorted_unique l l' : Sorted String.le l' → l' ≡ₚ l → sorted l = l'.
Proof.
  intros Hs Hp. apply (Sorted_unique String.le); [apply sorted_Sorted | done |].
  by rewrite sorted_Permutation.
Qed.

(** ** [list.index] and comprehensions *)

Lemma list_index_elem_of x l :
  x ∈ l → ∃ i, list_index x l = Ok i ∧ l !! i = Some x ∧ x ∉ take i l.
Proof.
  induction l as [|y l IH]; intros Hin.
  - by apply elem_of_nil in Hin.
  - simpl. destruct (decide (y = x)) as [->|Hne].
    + exists 0%nat. split_and!; [done..|]. simpl. apply not_elem_of_nil.
    + apply elem_of_cons in Hin as [->|Hin]; [done|].
      destruct (IH Hin) as (i & -> & Hl & Ht). exists (S i). simpl.
      split_and!; [done..|]. apply not_elem_of_cons. auto.
Qed.

Lemma list_index_not_elem_of x l :
  x ∉ l → list_index x l = Raise (ValueError "list.index(x): x not in list").
Proof.
  induction l as [|y l IH]; intros Hnin; [done|].
  apply not_elem_of_cons in Hnin as [Hne Hnin]. simpl.
  rewrite decide_False by done. by rewrite IH.
Qed.

Lemma list_index_Ok x l i :
  list_index x l = Ok i → x ∈ l ∧ l !! i = Some x ∧ x ∉ take i l.
Proof.
  intros Hi. destruct (decide (x ∈ l)) as [Hin|Hnin].
  - destruct (list_index_elem_of x l Hin) as (j & Hj & ? & ?).
    rewrite Hi in Hj. by simplify_eq.
  - by rewrite list_index_not_elem_of in Hi.
Qed.



Lemma filter_Forall_not {A} (P : A → Prop) `{∀ x, Decision (P x)} (l : list A) :
  Forall (λ x, ¬ P x) l → filter P l = [].
Proof.
  induction 1 as [|x l Hx _ IH]; [done|]. by rewrite filter_cons_False.
Qed.

Lemma filter_Forall {A} (P : A → Prop) `{∀ x, Decision (P x)} (l : list A) :
  Forall P l → filter P l = l.
Proof.
  induction 1 as [|x l Hx _ IH]; [done|]. rewrite filter_cons_True by done.
  by rewrite IH.
Qed.



(** ** Upgrade resolution *)

Lemma resolveUpgrade_no_target existing applied :
  resolveUpgrade existing applied None = Ok (filter (λ f, f ∉ applied) existing).
Proof. reflexivity. Qed.

Lemma truthy_str_Some t : t ≠ "" → truthy_str (Some t) = Some t.
Proof. by destruct t. Qed.



(** ** Downgrade resolution *)

Lemma resolveDowngrade_target existing applied target target_index :
  target ≠ "" → target ∈ existing →
  list_index target (reverse applied) = Ok target_index →
  resolveDowngrade existing applied (Some target) =
    Ok (take target_index (reverse applied)).
Proof.
  intros Hne Hin Hti. unfold resolveDowngrade. rewrite truthy_str_Some by done.
  rewrite decide_False by auto. rewrite Hti.
  apply list_index_Ok in Hti as (Hin' & _). by rewrite decide_True.
Qed.

Lemma list_index_split x l i :
  list_index x l = Ok i → l = take i l ++ x :: drop (S i) l.
Proof.
  intros (_ & Hl & _)%list_index_Ok.
  rewrite <- (take_drop_middle l i x Hl) at 1. done.
Qed.

(** C2. Downgrade resolution. For every discovered and applied list, the
    plan without a target is the applied list reversed, in full. For every
    non-empty target that is discovered and applied, the plan is the part of
    the reversed applied list strictly before the target: the target is not
    in it, and it is empty when the target is the most recently applied
    identifier. *)
Theorem C2_downgrade_resolution (discovered applied : list string) :
  resolveDowngrade discovered applied None = Ok (reverse applied) ∧
  (∀ target,
     target ≠ "" → target ∈ discovered → target ∈ reverse applied →
     ∃ plan rest,
       resolveDowngrade discovered applied (Some target) = Ok plan ∧
       reverse applied = plan ++ target :: rest ∧
       (target ∉ plan) ∧
       (last applied = Some target → plan = [])).
Proof.
  split; [reflexivity|]. intros target Hne Hin Happ.
  destruct (list_index_elem_of _ _ Happ) as (ti & Hti & Hl & Hnin).
  exists (take ti (reverse applied)), (drop (S ti) (reverse applied)).
  split_and!.
  - by apply resolveDowngrade_target.
  - by apply list_index_split.
  - done.
  - intros Hlast. rewrite <- head_reverse in Hlast.
    destruct (reverse applied) as [|x l]; [done|]. simplify_eq/=.
    rewrite decide_True in Hti by done. by simplify_eq.
Qed.

(** ** The empty target *)

(** C9. An empty string as target is no target: the upgrade plan is the whole
    pending list and the downgrade plan the whole applied list reversed,
    whatever the discovered list holds, and the methods behave as they do
    without a target. *)
Theorem C9_empty_target_is_no_target (existing applied : list string) :
  resolveUpgrade existing applied (Some "") =
    Ok (filter (λ f, f ∉ applied) existing) ∧
  resolveDowngrade existing applied (Some "") = Ok (reverse applied) ∧
  (∀ St (w : world St),
     list_migrations_to_upgrade (Some "") w = list_migrations_to_upgrade None w ∧
     list_migrations_to_downgrade (Some "") w = list_migrations_to_downgrade None w).
Proof. split_and!; [reflexivity..|]. intros St w. split; reflexivity. Qed.

(** ** The listings *)

Lemma set_txn_None_id {St} (w : world St) : txn w = None → set_txn None w = w.
Proof. destruct w; simpl; by intros ->. Qed.

(** Reading the ledger changes nothing: the unit of work it opens is closed
    again with the database as it was. *)
Lemma list_applied_migration_files_spec {St} (w : world St) :
  list_applied_migration_files w =
    (match history (db w) with
     | Some t => Ok (sorted (elements (dom t)))
     | None => Raise no_such_table
     end, set_txn None w).
Proof. destruct w as [[sch [t|] cl] tx dir ck tk lg eng]; reflexivity. Qed.

Lemma list_migrations_to_upgrade_spec {St} (w : world St) target :
  list_migrations_to_upgrade target w =
    (match history (db w), migrations_dir w with
     | Some t, Some entries =>
         resolveUpgrade (sorted (name <$> filter is_migration_file entries))
           (sorted (elements (dom t))) target
     | Some _, None => Raise (FileNotFoundError "migrations directory")
     | None, _ => Raise no_such_table
     end, set_txn None w).
Proof.
  unfold list_migrations_to_upgrade, bind.
  rewrite list_applied_migration_files_spec.
  destruct w as [[sch [t|] cl] tx [entries|] ck tk lg eng]; reflexivity.
Qed.

Lemma list_migrations_to_downgrade_spec {St} (w : world St) target :
  list_migrations_to_downgrade target w =
    (match history (db w), migrations_dir w with
     | Some t, Some entries =>
         resolveDowngrade (sorted (name <$> filter is_migration_file entries))
           (sorted (elements (dom t))) target
     | Some _, None => Raise (FileNotFoundError "migrations directory")
     | None, _ => Raise no_such_table
     end, set_txn None w).
Proof.
  unfold list_migrations_to_downgrade, bind.
  rewrite list_applied_migration_files_spec.
  destruct w as [[sch [t|] cl] tx [entries|] ck tk lg eng]; reflexivity.
Qed.

(** ** Target validation *)

Lemma resolveUpgrade_not_found existing applied target :
  target ≠ "" → target ∉ existing →
  resolveUpgrade existing applied (Some target) =
    Raise (ValueError ("Target migration " +:+ target +:+ " not found")).
Proof.
  intros Hne Hnin. unfold resolveUpgrade. rewrite truthy_str_Some by done.
  by rewrite decide_True.
Qed.

Lemma resolveDowngrade_not_found existing applied target :
  target ≠ "" → target ∉ existing →
  resolveDowngrade existing applied (Some target) =
    Raise (ValueError
             ("Target migration " +:+ target +:+ " not found in existing_files")).
Proof.
  intros Hne Hnin. unfold resolveDowngrade. rewrite truthy_str_Some by done.
  by rewrite decide_True.
Qed.

Lemma resolveDowngrade_not_applied existing applied target :
  target ≠ "" → target ∈ existing → target ∉ applied →
  resolveDowngrade existing applied (Some target) =
    Raise (add_note (ValueError "list.index(x): x not in list")
             ("Target migration " +:+ target +:+ " not found in applied files")).
Proof.
  intros Hne Hin Hnin. unfold resolveDowngrade. rewrite truthy_str_Some by done.
  rewrite decide_False by auto.
  rewrite list_index_not_elem_of; [done|]. by rewrite elem_of_reverse.
Qed.

(** C6. Target validation. On a tool at rest with its ledger and directory in
    place, a non-empty target that is not discovered makes both resolutions
    fail with TargetNotFound, and one that is discovered but not applied
    makes the downgrade resolution fail with TargetNotApplied. The world after
    the failure is the world before it: no ledger record is written and no
    unit is started. *)
Theorem C6_target_validation {St} (w : world St) t entries (target : string) :
  txn w = None → history (db w) = Some t → migrations_dir w = Some entries →
  target ≠ "" →
  let discovered := sorted (name <$> filter is_migration_file entries) in
  let applied := sorted (elements (dom t)) in
  (target ∉ discovered →
     ∃ e1 e2,
       list_migrations_to_upgrade (Some target) w = (Raise e1, w) ∧
       TargetNotFound target e1 ∧
       list_migrations_to_downgrade (Some target) w = (Raise e2, w) ∧
       TargetNotFound target e2) ∧
  (target ∈ discovered → target ∉ applied →
     ∃ e,
       list_migrations_to_downgrade (Some target) w = (Raise e, w) ∧
       TargetNotApplied target e).
Proof.
  intros Htx Hh Hd Hne discovered applied.
  rewrite list_migrations_to_upgrade_spec, list_migrations_to_downgrade_spec.
  rewrite Hh, Hd, set_txn_None_id by done.
  fold discovered applied. split.
  - intros Hnin. eexists _, _.
    rewrite resolveUpgrade_not_found, resolveDowngrade_not_found by done.
    split_and!; [done| |done|]; (split; [done|]); auto.
  - intros Hin Hnin. eexists.
    rewrite resolveDowngrade_not_applied by done. by split_and!.
Qed.

(** ** Discovery *)

(** C8, as the code has it. The listing is the names of the regular files of
    the directory that do not start with two underscores and are not
    [.gitkeep], each once per entry, in ascending order. Other hidden files
    are listed like any file. *)
Theorem C8_discovery_listing {St} (w : world St) entries :
  migrations_dir w = Some entries →
  ∃ l,
    list_existing_migration_files w = (Ok l, w) ∧
    Sorted String.le l ∧
    l ≡ₚ name <$> filter is_migration_file entries ∧
    ∀ n, n ∈ l ↔
      ∃ e, e ∈ entries ∧ name e = n ∧ is_file e = true ∧
           startswith n "__" = false ∧ n ≠ ".gitkeep".
Proof.
  intros Hd. unfold list_existing_migration_files. rewrite Hd.
  eexists. split_and!; [done|apply sorted_Sorted|apply sorted_Permutation|].
  intros n. rewrite elem_of_sorted, list_elem_of_fmap. split.
  - intros (e & -> & [(? & ? & ?) ?]%list_elem_of_filter). by exists e.
  - intros (e & ? & <- & ? & ? & ?). exists e. split; [done|].
    apply list_elem_of_filter. by repeat split.
Qed.

(** A hidden file other than [.gitkeep] is part of the listing. *)
Lemma C8_hidden_file_is_listed :
  (list_existing_migration_files Sample.w0).1 =
    Ok [".DS_Store"; Sample.m1; Sample.m2; Sample.m3; Sample.bad1; Sample.bad2] ∧
  startswith ".DS_Store" "." = true.
Proof. split; vm_compute; reflexivity. Qed.

(** ** One executor step *)

Lemma database_eta {St} (d : database St) :
  Database (schema d) (history d) (changelog d) = d.
Proof. by destruct d. Qed.

(** What a step that returns did, and what a step that raises left. *)
Lemma execute_file_cases {St} (flag : bool) (file : string) (w : world St) :
  match execute_file flag
          (if flag then save_migration_history else delete_migration_history)
          file w with
  | (Ok y, w') =>
      y = file ∧
      ∃ entries i e src sch t,
        migrations_dir w = Some entries ∧
        list_find (λ x, name x = file) entries = Some (i, e) ∧
        content e = Ok src ∧
        (if flag then src_upgrade src else src_downgrade src) (schema (db w))
          = (Ok (), sch) ∧
        history (db w) = Some t ∧
        (flag = true → t !! file = None) ∧
        w' = World
               (Database sch
                  (Some (if flag then <[file := clock w (ticks w)]> t
                         else delete file t))
                  (changelog (db w) ++ [(file, flag)]))
               None (migrations_dir w) (clock w)
               (if flag then S (ticks w) else ticks w)
               (log w ++ [Starting file flag]) (commits_at_once w)
  | (Raise _, w') =>
      history (db w') = history (db w) ∧
      changelog (db w') = changelog (db w) ∧
      (transactional_ddl w → db w' = db w) ∧
      (txn w = None → txn w' = None) ∧
      migrations_dir w' = migrations_dir w ∧
      clock w' = clock w ∧ commits_at_once w' = commits_at_once w ∧
      log w' = log w ++ [Starting file flag]
  end.
Proof.
  destruct w as [[sch0 h cl] tx dir ck tk lg eng].
  unfold execute_file, apply, load, load_migration_module, Session_begin, bind, ret.
  simpl. destruct dir as [entries|]; simpl; [|done].
  destruct (list_find _ entries) as [[i e]|] eqn:Hfind; simpl; [|done].
  destruct (content e) as [src|err] eqn:Hc; simpl; [|done].
  destruct flag; simpl.
  - unfold call_with_session, save_migration_history, bind, datetime_now,
      session_add, flush; simpl.
    destruct (src_upgrade src sch0) as [[[]|err] sch] eqn:Hcap; simpl.
    2:{ split_and!; try done. intros Ht. f_equal. apply (Ht sch0 sch). }
    destruct h as [t|]; unfold insert_row; simpl.
    2:{ split_and!; try done. intros Ht. f_equal. apply (Ht sch0 sch). }
    destruct (t !! file) eqn:Hl; simpl.
    { split_and!; try done. intros Ht. f_equal. apply (Ht sch0 sch). }
    split; [done|]. by eexists _, _, _, _, _, _.
  - unfold call_with_session, delete_migration_history, execute_delete, bind,
      flush; simpl.
    destruct (src_downgrade src sch0) as [[[]|err] sch] eqn:Hcap; simpl.
    2:{ split_and!; try done. intros Ht. f_equal. apply (Ht sch0 sch). }
    destruct h as [t|]; simpl.
    2:{ split_and!; try done. intros Ht. f_equal. apply (Ht sch0 sch). }
    split; [done|]. by eexists _, _, _, _, _, _.
Qed.

(** A step whose capability raises: the exception comes out as it is. The
    ledger is the one before the step, the schema is what the engine had
    committed of the change when it failed, and the start of the step is
    logged. *)
Lemma execute_file_capability_raises {St} (flag : bool) (file : string)
    (w : world St) entries i e src err sch :
  migrations_dir w = Some entries →
  list_find (λ x, name x = file) entries = Some (i, e) →
  content e = Ok src →
  (if flag then src_upgrade src else src_downgrade src) (schema (db w))
    = (Raise err, sch) →
  execute_file flag
    (if flag then save_migration_history else delete_migration_history) file w
  = (Raise err,
     set_txn None
       (set_db (Database (commits_at_once w (schema (db w)) sch)
                  (history (db w)) (changelog (db w)))
          (add_log (Starting file flag) w))).
Proof.
  destruct w as [[sch0 h cl] tx dir ck tk lg eng]. simpl. intros -> Hfind Hc Hcap.
  unfold execute_file, apply, load, load_migration_module, Session_begin, bind, ret.
  simpl. rewrite Hfind. simpl. rewrite Hc. simpl.
  destruct flag; unfold call_with_session; simpl; by rewrite Hcap.
Qed.

Lemma execute_loop_app {St} flag (db_update : string → M St unit) l1 l2 w :
  execute_loop flag db_update (l1 ++ l2) w =
    match execute_loop flag db_update l1 w with
    | ((ys, None), w1) =>
        let '((ys', e), w2) := execute_loop flag db_update l2 w1 in
        ((ys ++ ys', e), w2)
    | r => r
    end.
Proof.
  revert w. induction l1 as [|f l1 IH]; intros w; simpl.
  - by destruct (execute_loop flag db_update l2 w) as [[ys e] w2].
  - destruct (execute_file flag db_update f w) as [[y|err] w1]; [|done].
    rewrite IH.
    destruct (execute_loop flag db_update l1 _) as [[ys [e|]] w2]; [done|].
    by destruct (execute_loop flag db_update l2 w2) as [[ys' e'] w3].
Qed.

(** A run of upgrades that comes to its end yielded every file, recorded
    each of them, kept what was recorded, and logged no other file. *)
Lemma execute_loop_upgrade_completes {St} files (w w1 : world St) ys :
  execute_loop true save_migration_history files w = ((ys, None), w1) →
  ys = files ∧
  recorded (db w1) = list_to_set files ∪ recorded (db w) ∧
  (∀ u, u ∈ files → (u, true) ∈ changelog (db w1)) ∧
  (∀ c, c ∈ changelog (db w) → c ∈ changelog (db w1)) ∧
  migrations_dir w1 = migrations_dir w ∧
  commits_at_once w1 = commits_at_once w ∧
  (∀ u, Starting u true ∈ log w1 → Starting u true ∈ log w ∨ u ∈ files).
Proof.
  revert w ys. induction files as [|f files IH]; intros w ys; simpl.
  - intros [= <- <-].
    split_and!; [done| |intros ? []%elem_of_nil|done..|auto].
    symmetry. apply (left_id_L (∅ : gset string) (∪)).
  - pose proof (execute_file_cases true f w) as Hstep. simpl in Hstep.
    destruct (execute_file true save_migration_history f w) as [[y|err] w']; [|done].
    destruct Hstep as (-> & entries & i & e & src & sch & t & Hd & _ & _ & _ & Hh & Hfresh & ->).
    destruct (execute_loop _ _ files _) as [[ys' e'] w2] eqn:Hrest.
    intros [= <- -> <-].
    apply IH in Hrest as (-> & Hrec & Hcl & Hmono & Hdir & Heng & Hlog). simpl in *.
    split_and!.
    + done.
    + rewrite Hrec. unfold recorded. simpl. rewrite Hh, dom_insert_L.
      apply set_eq. intros x. rewrite !elem_of_union. tauto.
    + intros u [->|Hu]%elem_of_cons; [|auto].
      apply Hmono. apply elem_of_app. right. apply list_elem_of_singleton. done.
    + intros c Hc. apply Hmono. apply elem_of_app. by left.
    + done.
    + done.
    + intros u Hu. destruct (Hlog u Hu) as [Hl|Hl]; [|right; by apply list_elem_of_further].
      rewrite !elem_of_app, !list_elem_of_singleton in Hl.
      destruct Hl as [[Hl|Hl]|Hl]; simplify_eq; [by left|right; apply list_elem_of_here].
Qed.

(** ** Stop on the first failure *)

(** C3, as the code has it. When the units before [uk] have been applied and
    the forward capability of [uk] raises, the run yields exactly the units
    before [uk] and ends with the exception of the capability, as it was
    raised: nothing is added to it. Each unit before [uk] stays recorded. The
    unit of work of [uk] is rolled back: the ledger is the one the units
    before [uk] left, so [uk] has no record unless it had one before. The
    schema is what the engine had committed of the change of [uk] when it
    failed: with transactional DDL nothing, and the database is the one the
    units before [uk] left. No unit after [uk] is started. *)
Theorem C3_stop_on_first_failure {St} (w w1 : world St) (pre post : list string)
    (uk : string) entries i entry src (e : exn) sch :
  lazy_execute pre true w = ((pre, None), w1) →
  migrations_dir w = Some entries →
  list_find (λ x, name x = uk) entries = Some (i, entry) →
  content entry = Ok src →
  src_upgrade src (schema (db w1)) = (Raise e, sch) →
  ∃ w2,
    lazy_execute (pre ++ uk :: post) true w = ((pre, Some e), w2) ∧
    history (db w2) = history (db w1) ∧
    changelog (db w2) = changelog (db w1) ∧
    schema (db w2) = commits_at_once w (schema (db w1)) sch ∧
    (transactional_ddl w → db w2 = db w1) ∧
    txn w2 = None ∧
    (∀ u, u ∈ pre → u ∈ recorded (db w2) ∧ (u, true) ∈ changelog (db w2)) ∧
    (uk ∉ recorded (db w) → uk ∉ pre → uk ∉ recorded (db w2)) ∧
    log w2 = log w1 ++ [Starting uk true] ∧
    (∀ u, Starting u true ∈ log w2 →
          Starting u true ∈ log w ∨ u ∈ pre ∨ u = uk).
Proof.
  unfold lazy_execute. intros Hpre Hdir Hfind Hcontent Hcap.
  pose proof (execute_loop_upgrade_completes _ _ _ _ Hpre)
    as (_ & Hrec & Hcl & _ & Hdir1 & Heng & Hlog).
  eexists.
  rewrite execute_loop_app, Hpre. simpl.
  rewrite (execute_file_capability_raises true uk w1 entries i entry src e sch)
    by congruence.
  rewrite app_nil_r. split_and!; try done.
  - simpl. by rewrite Heng.
  - intros Ht. simpl. rewrite Heng, (Ht (schema (db w1)) sch). apply database_eta.
  - intros u Hu. simpl. split; [|auto]. unfold recorded. simpl.
    fold (recorded (db w1)). rewrite Hrec.
    apply elem_of_union. left. by apply elem_of_list_to_set.
  - intros Hnew Hpre'. unfold recorded. simpl. fold (recorded (db w1)). rewrite Hrec.
    rewrite elem_of_union, elem_of_list_to_set. tauto.
  - intros u. simpl. rewrite elem_of_app, list_elem_of_singleton.
    intros [Hu|Hu]; [destruct (Hlog u Hu); auto|]. simplify_eq. auto.
Qed.

(** What the claim promises and the code does not do, on the sample. The
    exception that ends a run does not tell which unit failed: two different
    units fail with the same exception. On the engine of the sample, which
    commits schema changes at once, the table the failing unit made before it
    failed is still there after the rollback. And a unit that fails on its
    second run has the record of its first. *)
Lemma C3_stated_guarantees_fail :
  (¬ ∃ identifier_of : exn → string,
       ∀ files yielded e uk,
         (lazy_execute files true Sample.w0).1 = (yielded, Some e) →
         files !! length yielded = Some uk →
         identifier_of e = uk) ∧
  (let r := lazy_execute [Sample.m1; Sample.bad1; Sample.m3] true Sample.w0 in
   r.1 = ([Sample.m1], Some (OperationalError "incomplete input")) ∧
   schema (db r.2) = ["half_made"; "t1"]%string) ∧
  (let r := lazy_execute [Sample.m1; Sample.m1] true Sample.w0 in
   r.1 = ([Sample.m1], Some (OperationalError "table t1 already exists")) ∧
   Sample.m1 ∈ recorded (db r.2)).
Proof.
  split_and!.
  - intros [identifier_of H].
    assert (identifier_of (OperationalError "incomplete input") = Sample.bad1) as H1.
    { apply (H [Sample.m1; Sample.bad1; Sample.m3] [Sample.m1]); vm_compute; reflexivity. }
    assert (identifier_of (OperationalError "incomplete input") = Sample.bad2) as H2.
    { apply (H [Sample.m1; Sample.bad2; Sample.m3] [Sample.m1]); vm_compute; reflexivity. }
    rewrite H1 in H2. vm_compute in H2. discriminate.
  - split; vm_compute; reflexivity.
  - split; [vm_compute; reflexivity|].
    apply elem_of_dom. exists (Sample.sample_clock 0). vm_compute. reflexivity.
Qed.

Lemma C3_stop_on_first_failure_witness :
  ∃ w2,
    lazy_execute ([Sample.m1] ++ Sample.bad1 :: [Sample.m3]) true Sample.w0
      = (([Sample.m1], Some (OperationalError "incomplete input")), w2) ∧
    history (db w2) = history (db (lazy_execute [Sample.m1] true Sample.w0).2) ∧
    schema (db w2) = ["half_made"; "t1"]%string ∧
    log w2 = [Starting Sample.m1 true; Finished Sample.m1 true;
              Starting Sample.bad1 true].
Proof.
  destruct (C3_stop_on_first_failure Sample.w0
              (lazy_execute [Sample.m1] true Sample.w0).2
              [Sample.m1] [Sample.m3] Sample.bad1 Sample.sample_dir 8%nat
              (DirEntry Sample.bad1 true
                 (Ok (ModuleSource Sample.broken (Sample.drop_table "t4"))))
              (ModuleSource Sample.broken (Sample.drop_table "t4"))
              (OperationalError "incomplete input")
              ["half_made"; "t1"]%string)
    as (w2 & Hrun & Hh & _ & Hsch & _ & _ & _ & _ & Hlog & _);
    [vm_compute; reflexivity..|].
  exists w2. split_and!; [exact Hrun|exact Hh| |].
  - rewrite Hsch. reflexivity.
  - rewrite Hlog. reflexivity.
Defined.

(** ** The ledger and the schema change together *)

Lemma effective_snoc cl c : effective (cl ++ [c]) = apply_change (effective cl) c.
Proof. unfold effective. by rewrite foldl_app. Qed.

(** One step either commits the change of the capability and the matching
    change of the ledger together, or leaves the ledger as it was; in the
    second case the whole database is as it was when the engine has
    transactional DDL. *)
Lemma execute_file_atomic {St} (flag : bool) (file : string) (w : world St) :
  let step := execute_file flag
                (if flag then save_migration_history else delete_migration_history)
                file w in
  match step.1 with
  | Ok _ =>
      changelog (db step.2) = changelog (db w) ++ [(file, flag)] ∧
      recorded (db step.2) = apply_change (recorded (db w)) (file, flag)
  | Raise _ =>
      history (db step.2) = history (db w) ∧
      changelog (db step.2) = changelog (db w) ∧
      (transactional_ddl w → db step.2 = db w)
  end.
Proof.
  pose proof (execute_file_cases flag file w) as Hstep.
  destruct (execute_file _ _ file w) as [[y|err] w']; simpl.
  - destruct Hstep as (_ & entries & i & e & src & sch & t & _ & _ & _ & _ & Hh & _ & ->).
    simpl. split; [done|]. unfold recorded, apply_change. simpl. rewrite Hh.
    destruct flag; simpl; [by rewrite dom_insert_L | by rewrite dom_delete_L].
  - tauto.
Qed.

Lemma execute_file_consistent {St} (flag : bool) (file : string) (w : world St) :
  ledger_consistent (db w) →
  ledger_consistent
    (db (execute_file flag
           (if flag then save_migration_history else delete_migration_history)
           file w).2).
Proof.
  unfold ledger_consistent. intros Hc.
  pose proof (execute_file_atomic flag file w) as Hstep. simpl in Hstep.
  destruct (execute_file _ _ file w) as [[y|err] w']; simpl in *.
  - destruct Hstep as [-> ->]. by rewrite effective_snoc, Hc.
  - destruct Hstep as (Hh & -> & _). unfold recorded in *. by rewrite Hh.
Qed.

Lemma MigrationTool_init_recorded {St} b (w : world St) :
  recorded (db (MigrationTool_init b w).2) = recorded (db w) ∧
  changelog (db (MigrationTool_init b w).2) = changelog (db w).
Proof.
  destruct w as [[sch [t|] cl] tx [entries|] ck tk lg eng], b; by vm_compute.
Qed.

Lemma generate_migration_db {St} description (w : world St) :
  db (generate_migration description w).2 = db w.
Proof.
  unfold generate_migration, write_text, bind, datetime_now, ret. simpl.
  repeat case_match; by simplify_eq/=.
Qed.

Lemma reachable_consistent {St} (w : world St) :
  reachable w → ledger_consistent (db w).
Proof.
  induction 1 as [w Hr Hc|w b _ IH|w file flag _ IH|w e _ IH|w d _ IH|w d _ IH].
  - unfold ledger_consistent. by rewrite Hr, Hc.
  - unfold ledger_consistent in *.
    destruct (MigrationTool_init_recorded b w) as [-> ->]. done.
  - by apply execute_file_consistent.
  - done.
  - by rewrite generate_migration_db.
  - done.
Qed.

Lemma lazy_execute_reachable {St} files flag (w : world St) :
  reachable w → reachable (lazy_execute files flag w).2.
Proof.
  unfold lazy_execute. revert w. induction files as [|f files IH]; intros w Hr; [done|].
  simpl. pose proof (reach_execute w f flag Hr) as Hstep.
  destruct (execute_file _ _ f w) as [[y|err] w1]; [|done].
  specialize (IH (add_log (Finished f flag) w1) (reach_log _ _ Hstep)).
  by destruct (execute_loop _ _ files _) as [[ys e] w2].
Qed.

(** A step whose capability returns, on a ledger that takes the change,
    commits both. *)
Lemma execute_file_ok {St} (flag : bool) (file : string) (w : world St)
    entries i e src sch t :
  migrations_dir w = Some entries →
  list_find (λ x, name x = file) entries = Some (i, e) →
  content e = Ok src →
  (if flag then src_upgrade src else src_downgrade src) (schema (db w)) = (Ok (), sch) →
  history (db w) = Some t →
  (flag = true → t !! file = None) →
  execute_file flag
    (if flag then save_migration_history else delete_migration_history) file w =
    (Ok file,
     World (Database sch
              (Some (if flag then <[file := clock w (ticks w)]> t else delete file t))
              (changelog (db w) ++ [(file, flag)]))
       None (migrations_dir w) (clock w) (if flag then S (ticks w) else ticks w)
       (log w ++ [Starting file flag]) (commits_at_once w)).
Proof.
  destruct w as [[sch0 h cl] tx dir ck tk lg eng]. simpl.
  intros -> Hfind Hc Hcap -> Hl.
  unfold execute_file, apply, load, load_migration_module, Session_begin, bind, ret.
  simpl. rewrite Hfind. simpl. rewrite Hc. simpl. destruct flag.
  - unfold call_with_session, save_migration_history, bind, datetime_now,
      session_add, flush; simpl.
    rewrite Hcap. simpl. unfold insert_row. simpl. by rewrite Hl.
  - unfold call_with_session, delete_migration_history, execute_delete, bind,
      flush; simpl.
    by rewrite Hcap.
Qed.

(** C4, as the code has it. Every executor step runs the capability and the
    matching change of the ledger in one unit of work. A step that returns
    has committed both together, and it does return whenever the capability
    returns and the ledger takes the change. A step that raises leaves the
    ledger as it was. So in every world the tool can reach an identifier has
    a history record exactly when its forward step was committed and not
    reverted since. A step that raises leaves the whole database as it was
    when the engine has transactional DDL; otherwise what the engine
    committed of the schema change stays. *)
Theorem C4_ledger_atomicity {St} (w : world St) :
  reachable w →
  (∀ f, f ∈ recorded (db w) ↔ f ∈ effective (changelog (db w))) ∧
  (∀ file flag,
     let step := execute_file flag
                   (if flag then save_migration_history else delete_migration_history)
                   file w in
     reachable step.2 ∧
     match step.1 with
     | Ok _ =>
         changelog (db step.2) = changelog (db w) ++ [(file, flag)] ∧
         recorded (db step.2) = apply_change (recorded (db w)) (file, flag)
     | Raise _ =>
         history (db step.2) = history (db w) ∧
         changelog (db step.2) = changelog (db w) ∧
         (transactional_ddl w → db step.2 = db w)
     end ∧
     (∀ entries i e src sch t,
        migrations_dir w = Some entries →
        list_find (λ x, name x = file) entries = Some (i, e) →
        content e = Ok src →
        (if flag then src_upgrade src else src_downgrade src) (schema (db w))
          = (Ok (), sch) →
        history (db w) = Some t →
        (flag = true → t !! file = None) →
        step.1 = Ok file ∧
        db step.2 =
          Database sch
            (Some (if flag then <[file := clock w (ticks w)]> t else delete file t))
            (changelog (db w) ++ [(file, flag)]))).
Proof.
  intros Hr. split.
  - intros f. by rewrite (reachable_consistent w Hr).
  - intros file flag step. split_and!.
    + by apply reach_execute.
    + apply execute_file_atomic.
    + intros entries i e src sch t Hd Hfind Hc Hcap Hh Hl. unfold step.
      by rewrite (execute_file_ok flag file w entries i e src sch t).
Qed.

Lemma C4_ledger_atomicity_witness :
  let w := (lazy_execute [Sample.m1] true Sample.transactional_world).2 in
  (Sample.m1 ∈ recorded (db w) ↔ Sample.m1 ∈ effective (changelog (db w))) ∧
  db (execute_file true save_migration_history Sample.bad1 w).2 = db w.
Proof.
  intros w.
  destruct (C4_ledger_atomicity w) as [Hinv Hstep].
  { apply lazy_execute_reachable. apply reach_fresh; reflexivity. }
  split; [apply Hinv|].
  destruct (Hstep Sample.bad1 true) as (_ & Hcase & _).
  apply Hcase. intros committed left. reflexivity.
Defined.

(** On an engine that commits schema changes at once, a step leaves a schema
    change committed without the change of the ledger. From the empty sample
    database the step of a unit that fails half way leaves the table it made,
    and no record. And when the file of a recorded unit has been edited to
    make another table, its step makes that table, the insertion of the
    record is refused, and the table stays while the ledger is as it was. *)
Lemma C4_schema_change_without_ledger_change :
  (let step := execute_file true save_migration_history Sample.bad1 Sample.w0 in
   reachable Sample.w0 ∧
   step.1 = Raise (OperationalError "incomplete input") ∧
   schema (db Sample.w0) = [] ∧
   schema (db step.2) = ["half_made"]%string ∧
   history (db step.2) = history (db Sample.w0)) ∧
  (let w := set_dir
              (Some [DirEntry Sample.m1 true
                       (Ok (ModuleSource (Sample.create_table "t9")
                              (Sample.drop_table "t9")))])
              (lazy_execute [Sample.m1] true Sample.good_world).2 in
   let step := execute_file true save_migration_history Sample.m1 w in
   reachable w ∧
   step.1 = Raise (IntegrityError "UNIQUE constraint failed: migration_history.filename") ∧
   schema (db w) = ["t1"]%string ∧
   schema (db step.2) = ["t9"; "t1"]%string ∧
   history (db step.2) = history (db w)).
Proof.
  split.
  - split_and!; [by apply reach_fresh|vm_compute; reflexivity..].
  - split_and!; [|vm_compute; reflexivity..].
    apply reach_files, lazy_execute_reachable, reach_fresh; reflexivity.
Qed.

(** ** Creating the ledger table *)

(** C5, as the code has it. The table is created without a check for its
    existence. On a database without the table the creation succeeds and
    leaves an empty table. On a database that has the table the creation
    raises and the database, the table and its records included, stays as it
    was; so does the construction of a tool that is told to create the table.
    Only a creation with [checkfirst] would be idempotent. *)
Theorem C5_table_creation {St} (w : world St) :
  (history (db w) = None →
     create_history_table w =
       (Ok (), set_db (Database (schema (db w)) (Some ∅) (changelog (db w))) w)) ∧
  (∀ t, history (db w) = Some t →
     create_history_table w =
       (Raise (OperationalError "table migration_history already exists"), w) ∧
     (migrations_dir w ≠ None →
        MigrationTool_init true w =
          (Raise (OperationalError "table migration_history already exists"), w)) ∧
     metadata_create_all true w = (Ok (), w)).
Proof.
  unfold create_history_table, MigrationTool_init, metadata_create_all, bind.
  split.
  - by intros ->.
  - intros t Ht. rewrite Ht. split_and!; [done| |done].
    destruct (migrations_dir w); [|done]. unfold create_history_table, metadata_create_all.
    by rewrite Ht.
Qed.

Lemma C5_table_creation_witness :
  create_history_table Sample.uninitialised = (Ok (), set_db (db Sample.w0) Sample.uninitialised) ∧
  create_history_table Sample.w0 =
    (Raise (OperationalError "table migration_history already exists"), Sample.w0).
Proof.
  split.
  - destruct (C5_table_creation Sample.uninitialised) as [H _]. apply H. reflexivity.
  - destruct (C5_table_creation Sample.w0) as [_ H].
    destruct (H ∅ eq_refl) as [H1 _]. exact H1.
Defined.

(** Creating the table a second time is an error. *)
Lemma C5_second_creation_fails :
  (create_history_table ;; create_history_table) Sample.uninitialised =
    (Raise (OperationalError "table migration_history already exists"),
     set_db (Database [] (Some ∅) []) Sample.uninitialised).
Proof. reflexivity. Qed.

(** ** Identifiers and time *)

Lemma string_compare_app p1 p2 s1 s2 :
  String.length p1 = String.length p2 →
  String.compare (p1 +:+ s1) (p2 +:+ s2) =
    match String.compare p1 p2 with
    | Eq => String.compare s1 s2
    | c => c
    end.
Proof.
  revert p2. induction p1 as [|c1 p1 IH]; intros [|c2 p2] Hlen; simplify_eq/=; [done|].
  destruct (Ascii.compare c1 c2); auto.
Qed.

Lemma string_length_app s1 s2 :
  String.length (s1 +:+ s2) = (String.length s1 + String.length s2)%nat.
Proof. induction s1; simpl; auto. Qed.

Lemma ascii_compare_digit x y :
  0 ≤ x ≤ 9 → 0 ≤ y ≤ 9 → Ascii.compare (digit x) (digit y) = (x ?= y).
Proof.
  intros Hx Hy. unfold Ascii.compare, digit.
  rewrite !N_ascii_embedding by lia.
  rewrite Z2N.inj_compare by lia. apply Z.add_compare_mono_l.
Qed.

Lemma zero_pad_length w n : String.length (zero_pad w n) = w.
Proof. revert n. induction w as [|w IH]; intros n; simpl; auto. Qed.

Lemma zero_pad_compare w a b :
  0 ≤ a < 10 ^ Z.of_nat w → 0 ≤ b < 10 ^ Z.of_nat w →
  String.compare (zero_pad w a) (zero_pad w b) = (a ?= b).
Proof.
  revert a b. induction w as [|w IH]; intros a b Ha Hb.
  - simpl in *. assert (a = 0) as -> by lia. by assert (b = 0) as -> by lia.
  - rewrite Nat2Z.inj_succ, Z.pow_succ_r in Ha, Hb by lia.
    cbn [zero_pad String.compare].
    assert (0 < 10 ^ Z.of_nat w) as Hpos by (apply Z.pow_pos_nonneg; lia).
    pose proof (Z.div_mod a (10 ^ Z.of_nat w) ltac:(lia)) as Hda.
    pose proof (Z.div_mod b (10 ^ Z.of_nat w) ltac:(lia)) as Hdb.
    pose proof (Z.mod_pos_bound a (10 ^ Z.of_nat w) Hpos) as Hma.
    pose proof (Z.mod_pos_bound b (10 ^ Z.of_nat w) Hpos) as Hmb.
    set (P := 10 ^ Z.of_nat w) in *.
    set (qa := a / P) in *. set (qb := b / P) in *.
    set (ra := a mod P) in *. set (rb := b mod P) in *.
    assert (0 ≤ qa ≤ 9) by nia. assert (0 ≤ qb ≤ 9) by nia.
    rewrite ascii_compare_digit, IH by done.
    destruct (Z.compare_spec qa qb) as [Heq|Hlt|Hgt].
    + rewrite Hda, Hdb, Heq. symmetry. apply Z.add_compare_mono_l.
    + symmetry. apply Z.compare_lt_iff. nia.
    + symmetry. apply Z.compare_gt_iff. nia.
Qed.

Lemma year_digits_four y : 1000 ≤ y → year_digits y = zero_pad 4 y.
Proof.
  intros Hy. unfold year_digits.
  assert ((y <? 10) = false) as -> by lia.
  assert ((y <? 100) = false) as -> by lia.
  by assert ((y <? 1000) = false) as -> by lia.
Qed.

(** From the year 1000 on the stamp is made of fields of fixed width. *)
Lemma strftime_DATETIME_FMT t :
  1000 ≤ year t →
  strftime DATETIME_FMT t =
    zero_pad 4 (year t) +:+ zero_pad 2 (month t) +:+ zero_pad 2 (day t) +:+ "_" +:+
    zero_pad 2 (hour t) +:+ zero_pad 2 (minute t) +:+ "_" +:+
    zero_pad 2 (second t) +:+ zero_pad 6 (microsecond t) +:+ "".
Proof. intros Hy. rewrite <- (year_digits_four _ Hy). reflexivity. Qed.

Lemma strftime_length t :
  valid_datetime t → String.length (strftime DATETIME_FMT t) = 22%nat.
Proof.
  intros (? & _). rewrite strftime_DATETIME_FMT by lia.
  by rewrite !string_length_app, !zero_pad_length.
Qed.

Lemma strftime_compare t1 t2 :
  valid_datetime t1 → valid_datetime t2 →
  String.compare (strftime DATETIME_FMT t1) (strftime DATETIME_FMT t2)
  = datetime_compare t1 t2.
Proof.
  intros (? & ? & ? & ? & ? & ? & ?) (? & ? & ? & ? & ? & ? & ?).
  rewrite !strftime_DATETIME_FMT by lia. unfold datetime_compare.
  repeat first
    [ rewrite string_compare_app by (by rewrite !zero_pad_length)
    | rewrite zero_pad_compare by (simpl; lia)
    | progress change (String.compare ("_" +:+ ?x) ("_" +:+ ?y)) with (String.compare x y) ].
  simpl. by destruct (microsecond t1 ?= microsecond t2);
    repeat (case_match; try done).
Qed.

Lemma migration_filename_compare t1 t2 d1 d2 :
  valid_datetime t1 → valid_datetime t2 → datetime_lt t1 t2 →
  String.compare (migration_filename t1 d1) (migration_filename t2 d2) = Lt.
Proof.
  intros Hv1 Hv2 Hlt. unfold migration_filename.
  rewrite string_compare_app by (by rewrite !strftime_length).
  rewrite strftime_compare by done. by rewrite Hlt.
Qed.

Lemma string_lt_le s1 s2 :
  String.compare s1 s2 = Lt → String.le s1 s2 ∧ ¬ String.le s2 s1.
Proof.
  intros Hlt. unfold String.le, String.leb.
  rewrite (String.compare_antisym s2 s1), Hlt. simpl. auto.
Qed.

(** C7. Identifier order is chronological. For two creation times [t1]
    before [t2] and any two descriptions, the generated names compare in the
    order of the times, whatever the descriptions, so the ascending sort of
    discovery lists the earlier file first. *)
Theorem C7_identifier_order_is_chronological (t1 t2 : datetime) (d1 d2 : string) :
  valid_datetime t1 → valid_datetime t2 → datetime_lt t1 t2 →
  let n1 := migration_filename t1 d1 in
  let n2 := migration_filename t2 d2 in
  String.compare n1 n2 = Lt ∧
  String.ltb n1 n2 = true ∧
  sorted [n2; n1] = [n1; n2] ∧
  sorted [n1; n2] = [n1; n2] ∧
  (∀ St (w : world St) entries,
     migrations_dir w = Some entries →
     name <$> filter is_migration_file entries ≡ₚ [n1; n2] →
     list_existing_migration_files w = (Ok [n1; n2], w)).
Proof.
  intros Hv1 Hv2 Hlt n1 n2.
  pose proof (migration_filename_compare t1 t2 d1 d2 Hv1 Hv2 Hlt) as Hc.
  fold n1 n2 in Hc. destruct (string_lt_le _ _ Hc) as [Hle _].
  assert (Sorted String.le [n1; n2]) as Hs by (repeat constructor; done).
  split_and!.
  - done.
  - unfold String.ltb. by rewrite Hc.
  - apply sorted_unique; [done|]. apply Permutation_swap.
  - by apply sorted_unique.
  - intros St w entries Hd Hp. unfold list_existing_migration_files. rewrite Hd.
    f_equal. f_equal. by apply sorted_unique.
Qed.

Lemma C7_identifier_order_is_chronological_witness :
  String.compare
    (migration_filename (Datetime 2024 1 15 10 0 0 1) "zzz first")
    (migration_filename (Datetime 2024 1 15 11 0 0 1) "aaa second") = Lt.
Proof.
  apply (C7_identifier_order_is_chronological
           (Datetime 2024 1 15 10 0 0 1) (Datetime 2024 1 15 11 0 0 1)
           "zzz first" "aaa second");
    [unfold valid_datetime; simpl; lia..|reflexivity].
Defined.


(** ** The status report *)

Lemma comprehension_map_total {A B} (f : A → result B) (g : A → B) (l : list A) :
  (∀ x, x ∈ l → f x = Ok (g x)) → comprehension_map f l = Ok (g <$> l).
Proof.
  induction l as [|x l IH]; intros Hf; [done|].
  simpl. rewrite Hf by apply list_elem_of_here. simpl.
  rewrite IH by (intros; apply Hf; by apply list_elem_of_further). done.
Qed.

Lemma elem_of_order_by_filename (t : gmap string datetime) f at_ :
  (f, at_) ∈ order_by_filename t ↔ t !! f = Some at_.
Proof.
  unfold order_by_filename. rewrite list_elem_of_omap. split.
  - intros (x & _ & Hx). destruct (t !! x) eqn:Hl; by simplify_eq/=.
  - intros Hl. exists f. rewrite Hl. split; [|done].
    unfold sorted. rewrite merge_sort_Permutation, elem_of_elements, elem_of_dom. eauto.
Qed.

Lemma order_by_filename_fst (t : gmap string datetime) :
  (order_by_filename t).*1 = sorted (elements (dom t)).
Proof.
  unfold order_by_filename.
  assert (∀ f, f ∈ sorted (elements (dom t)) → is_Some (t !! f)) as Hall.
  { intros f. unfold sorted.
    rewrite merge_sort_Permutation, elem_of_elements. apply elem_of_dom. }
  induction (sorted (elements (dom t))) as [|f l IH]; [done|].
  simpl. destruct (Hall f) as [at_ Hl]; [apply list_elem_of_here|].
  rewrite Hl. simpl. f_equal. apply IH. intros; apply Hall. by apply list_elem_of_further.
Qed.

(** The rows the report reads, and the world after reading them. *)
Lemma history_rows_spec {St} (history_limit : option Z) (w : world St) :
  Session_begin (let! t := execute_select in lift (history_query history_limit t)) w =
    (match history (db w) with
     | Some t => history_query history_limit t
     | None => Raise no_such_table
     end, set_txn None w).
Proof.
  destruct w as [[sch [t|] cl] tx dir ck tk lg eng]; [|reflexivity].
  unfold Session_begin, bind, execute_select, flush, lift. simpl.
  by destruct (history_query history_limit t).
Qed.

(** C10. A history limit of zero is no limit. The report with limit [0] is
    the report without a limit. When the ledger and the directory are in
    place and every name parses, it holds a row for every history record, in
    ascending order of the names, followed by the pending names. *)
Theorem C10_zero_limit_is_unlimited {St}
    (strptime : string → string → result datetime) (w : world St)
    (t : gmap string datetime) entries (created : string → datetime) :
  history (db w) = Some t →
  migrations_dir w = Some entries →
  let applied := sorted (elements (dom t)) in
  let discovered := sorted (name <$> filter is_migration_file entries) in
  (∀ f, f ∈ applied ∨ f ∈ discovered →
        ∃ description, parse_filename strptime f = Ok (created f, description)) →
  list_all_migrations strptime (Some 0) w = list_all_migrations strptime None w ∧
  (list_all_migrations strptime (Some 0) w).1 =
    Ok (((λ row, Build_MigrationInfo row.1 (created row.1) (Some row.2))
           <$> order_by_filename t)
        ++ ((λ f, Build_MigrationInfo f (created f) None)
              <$> filter (λ f, f ∉ applied) discovered)) ∧
  (order_by_filename t).*1 = applied ∧
  (∀ f at_, t !! f = Some at_ → (f, at_) ∈ order_by_filename t).
Proof.
  intros Hh Hd applied discovered Hparse. split_and!.
  - reflexivity.
  - unfold list_all_migrations. unfold bind at 1.
    rewrite history_rows_spec, Hh. simpl. unfold bind at 1. unfold lift at 1.
    rewrite (comprehension_map_total _
               (λ row, Build_MigrationInfo row.1 (created row.1) (Some row.2))).
    2:{ intros [f at_] Hrow. simpl.
        destruct (Hparse f) as [d ->]; [|done]. left.
        apply (list_elem_of_fmap_2 fst) in Hrow. by rewrite order_by_filename_fst in Hrow. }
    unfold bind at 1. rewrite list_migrations_to_upgrade_spec. simpl.
    rewrite Hh, Hd. simpl. fold applied discovered. unfold bind, lift.
    rewrite (comprehension_map_total _ (λ f, Build_MigrationInfo f (created f) None)).
    2:{ intros f [_ Hf]%list_elem_of_filter. destruct (Hparse f) as [d ->]; auto. }
    done.
  - apply order_by_filename_fst.
  - intros f at_. apply elem_of_order_by_filename.
Qed.

Lemma C10_zero_limit_is_unlimited_witness :
  let w := (lazy_execute [Sample.m1; Sample.m2] true Sample.good_world).2 in
  list_all_migrations Sample.strptime (Some 0) w =
  list_all_migrations Sample.strptime None w.
Proof.
  intros w.
  apply (C10_zero_limit_is_unlimited Sample.strptime w
           (default ∅ (history (db w))) Sample.good_dir
           (λ f, match parse_filename Sample.strptime f with
                 | Ok p => p.1
                 | Raise _ => Datetime 0 0 0 0 0 0 0
                 end)).
  - vm_compute. reflexivity.
  - reflexivity.
  - intros f Hf. vm_compute in Hf.
    destruct Hf as [Hf%list_elem_of_In|Hf%list_elem_of_In]; simpl in Hf;
      destruct_or!; try done; subst f; eexists; vm_compute; reflexivity.
Defined.

(** A positive limit does restrict the report: with two records and limit
    one, only the later record is listed before the pending name. *)
Example history_limit_one :
  info_filename <$>
    default [] (match (list_all_migrations Sample.strptime (Some 1)
                         (lazy_execute [Sample.m1; Sample.m2] true
                            Sample.good_world).2).1 with
                | Ok rv => Some rv
                | Raise _ => None
                end)
  = [Sample.m2; Sample.m3].
Proof. vm_compute. reflexivity. Qed.

(** ** The properties on the sample *)


Lemma C2_downgrade_resolution_witness :
  ∃ plan rest,
    resolveDowngrade [Sample.m1; Sample.m2; Sample.m3]
      [Sample.m1; Sample.m2; Sample.m3] (Some Sample.m1) = Ok plan ∧
    reverse [Sample.m1; Sample.m2; Sample.m3] = plan ++ Sample.m1 :: rest.
Proof.
  destruct (C2_downgrade_resolution [Sample.m1; Sample.m2; Sample.m3]
              [Sample.m1; Sample.m2; Sample.m3]) as (_ & Htarget).
  destruct (Htarget Sample.m1) as (plan & rest & Hplan & Hsplit & _).
  - discriminate.
  - apply list_elem_of_here.
  - apply elem_of_reverse, list_elem_of_here.
  - by exists plan, rest.
Defined.

Lemma C6_target_validation_witness :
  ∃ e,
    list_migrations_to_upgrade (Some "nonexistent") Sample.w0 = (Raise e, Sample.w0) ∧
    TargetNotFound "nonexistent" e.
Proof.
  destruct (C6_target_validation Sample.w0 ∅ Sample.sample_dir "nonexistent")
    as [Hnot_found _]; [reflexivity..|discriminate|].
  destruct Hnot_found as (e1 & e2 & Hup & Hnf & _).
  - intros Hin%elem_of_sorted%list_elem_of_In. vm_compute in Hin.
    destruct_or!; done.
  - by exists e1.
Defined.

Lemma C8_discovery_listing_witness :
  ∃ l, list_existing_migration_files Sample.w0 = (Ok l, Sample.w0) ∧
       Sorted String.le l.
Proof.
  destruct (C8_discovery_listing Sample.w0 Sample.sample_dir eq_refl)
    as (l & Hl & Hs & _).
  by exists l.
Defined.

(** ** The scenarios of the test suite on the sample *)

(** With none applied, upgrading to the second file plans the first two. *)
Example upgrade_to_second :
  (list_migrations_to_upgrade (Some Sample.m2) Sample.good_world).1 =
    Ok [Sample.m1; Sample.m2].
Proof. vm_compute. reflexivity. Qed.

(** With all three applied, downgrading to the first file plans the third
    and the second, in that order. *)
Example downgrade_to_first :
  (list_migrations_to_downgrade (Some Sample.m1)
     (lazy_execute [Sample.m1; Sample.m2; Sample.m3] true Sample.good_world).2).1 =
    Ok [Sample.m3; Sample.m2].
Proof. vm_compute. reflexivity. Qed.

(** Applying everything and reverting everything leaves an empty ledger. *)
Example upgrade_then_downgrade :
  let w := (lazy_execute [Sample.m1; Sample.m2; Sample.m3] true Sample.good_world).2 in
  (list_applied_migration_files w).1 = Ok [Sample.m1; Sample.m2; Sample.m3] ∧
  (list_applied_migration_files
     (lazy_execute [Sample.m3; Sample.m2; Sample.m1] false w).2).1 = Ok [].
Proof. split; vm_compute; reflexivity. Qed.

(** A unit that is run a second time fails in its capability and keeps the
    record of its first run. *)
Example repeated_unit_keeps_its_record :
  let r := lazy_execute [Sample.m1; Sample.m1] true Sample.good_world in
  r.1 = ([Sample.m1], Some (OperationalError "table t1 already exists")) ∧
  (list_applied_migration_files r.2).1 = Ok [Sample.m1].
Proof. split; vm_compute; reflexivity. Qed.

(** * Further properties of the code *)

(** ** The listings of the ledger *)

Lemma elem_of_applied (t : gmap string datetime) f :
  f ∈ sorted (elements (dom t)) ↔ f ∈ dom t.
Proof. by rewrite elem_of_sorted, elem_of_elements. Qed.

Lemma NoDup_applied (t : gmap string datetime) :
  NoDup (sorted (elements (dom t))).
Proof. rewrite sorted_Permutation. apply NoDup_elements. Qed.

(** In an ascending list without repetition each element is strictly below
    the ones after it. *)
Lemma StronglySorted_lt l :
  StronglySorted String.le l → NoDup l →
  StronglySorted (λ a b, String.le a b ∧ a ≠ b) l.
Proof.
  induction 1 as [|a l Hs IH Hall]; intros Hnd; [constructor|].
  apply NoDup_cons in Hnd as [Hnin Hnd]. constructor; [auto|].
  rewrite Forall_forall in Hall |- *. intros x Hx. split; [auto|].
  by intros ->.
Qed.

(** X1. The listing of the ledger: with the table in place, the method
    returns the recorded names and only them, each once, in strictly
    ascending order, and leaves the world as it was apart from closing the
    unit of work it opened. Without the table it raises. *)
Theorem list_applied_is_the_ledger {St} (w : world St) :
  (∀ t, history (db w) = Some t →
     ∃ l, list_applied_migration_files w = (Ok l, set_txn None w) ∧
          (∀ f, f ∈ l ↔ f ∈ recorded (db w)) ∧
          NoDup l ∧
          StronglySorted (λ a b, String.le a b ∧ a ≠ b) l) ∧
  (history (db w) = None →
     list_applied_migration_files w = (Raise no_such_table, set_txn None w)).
Proof.
  rewrite list_applied_migration_files_spec. split.
  - intros t Ht. rewrite Ht. eexists. split; [done|]. split_and!.
    + intros f. unfold recorded. rewrite Ht. apply elem_of_applied.
    + apply NoDup_applied.
    + apply StronglySorted_lt; [apply sorted_StronglySorted | apply NoDup_applied].
  - by intros ->.
Qed.

Lemma list_applied_is_the_ledger_witness :
  ∃ l, list_applied_migration_files Sample.w0 = (Ok l, set_txn None Sample.w0) ∧
       NoDup l.
Proof.
  destruct (list_applied_is_the_ledger Sample.w0) as [H _].
  destruct (H ∅ eq_refl) as (l & Hl & _ & Hnd & _). by exists l.
Defined.

(** ** The current revision *)

Lemma get_current_revision_spec {St} (w : world St) :
  get_current_revision w =
    (match history (db w) with
     | Some t => Ok (match sorted (elements (dom t)) with
                     | [] => ""
                     | l => List.last l ""
                     end)
     | None => Raise no_such_table
     end, set_txn None w).
Proof.
  unfold get_current_revision, bind. rewrite list_applied_migration_files_spec.
  destruct (history (db w)); [|done]. unfold ret.
  by destruct (sorted _).
Qed.

Lemma last_last_default (l : list string) x : last l = Some x → List.last l "" = x.
Proof.
  intros (l' & ->)%last_Some. by rewrite List.last_last.
Qed.

Lemma StronglySorted_last_max l x :
  StronglySorted String.le l → last l = Some x → ∀ f, f ∈ l → String.le f x.
Proof.
  intros Hs (l' & ->)%last_Some f Hf.
  apply elem_of_app in Hf as [Hf|Hf%list_elem_of_singleton]; [|by subst].
  eapply (StronglySorted_app_1_elem_of String.le); [exact Hs|exact Hf|].
  apply list_elem_of_here.
Qed.

(** X2. The current revision is the empty string on an empty ledger, and
    otherwise the greatest recorded name. *)
Theorem current_revision_is_greatest {St} (w : world St) t :
  history (db w) = Some t →
  ∃ r, (get_current_revision w).1 = Ok r ∧
       (dom t = ∅ → r = "") ∧
       (dom t ≠ ∅ → r ∈ dom t ∧ ∀ f, f ∈ dom t → String.le f r).
Proof.
  intros Ht. rewrite get_current_revision_spec, Ht. simpl.
  set (r := match sorted (elements (dom t)) with [] => "" | _ => _ end).
  exists r. split; [done|].
  destruct (sorted (elements (dom t))) as [|a l] eqn:Hl.
  - split; [done|]. intros Hne. destruct Hne. apply set_eq. intros f.
    rewrite <- elem_of_applied, Hl, elem_of_nil. split; [done|].
    by intros ?%not_elem_of_empty.
  - split.
    + intros He. assert (a ∈ dom t) as Ha
        by (apply elem_of_applied; rewrite Hl; apply list_elem_of_here).
      rewrite He in Ha. by apply not_elem_of_empty in Ha.
    + intros _. destruct (last (a :: l)) as [x|] eqn:Hlast.
      2:{ by apply last_None in Hlast. }
      assert (r = x) as ->
        by (subst r; exact (last_last_default (a :: l) x Hlast)).
      split.
      * apply elem_of_applied. rewrite Hl. by apply last_Some_elem_of.
      * intros f Hf%elem_of_applied. rewrite Hl in Hf.
        eapply StronglySorted_last_max; [|exact Hlast|exact Hf].
        rewrite <- Hl. apply sorted_StronglySorted.
Qed.

Lemma current_revision_is_greatest_witness :
  ∃ r, (get_current_revision
          (lazy_execute [Sample.m1; Sample.m2] true Sample.good_world).2).1 = Ok r.
Proof.
  destruct (current_revision_is_greatest
              (lazy_execute [Sample.m1; Sample.m2] true Sample.good_world).2
              (default ∅ (history (db (lazy_execute [Sample.m1; Sample.m2] true
                                         Sample.good_world).2))))
    as (r & Hr & _); [vm_compute; reflexivity|].
  by exists r.
Defined.

(** ** The shape of a downgrade plan *)

Lemma resolveDowngrade_prefix existing applied target plan :
  resolveDowngrade existing applied target = Ok plan →
  ∃ rest, reverse applied = plan ++ rest.
Proof.
  unfold resolveDowngrade. destruct (truthy_str target) as [t|].
  - case_decide; [done|]. destruct (list_index t (reverse applied)) as [i|] eqn:Hi; [|done].
    case_decide; intros [= <-].
    + exists (drop i (reverse applied)). by rewrite take_drop.
    + exists []. by rewrite app_nil_r.
  - intros [= <-]. exists []. by rewrite app_nil_r.
Qed.

(** X3. Whatever the target, a downgrade plan that is returned is an initial
    part of the applied list reversed: its names are recorded, none occurs
    twice, and they are in descending order. *)
Theorem downgrade_plan_shape {St} (w : world St) target plan :
  (list_migrations_to_downgrade target w).1 = Ok plan →
  ∃ t rest,
    history (db w) = Some t ∧
    reverse (sorted (elements (dom t))) = plan ++ rest ∧
    (∀ f, f ∈ plan → f ∈ recorded (db w)) ∧
    NoDup plan ∧
    Sorted (flip String.le) plan.
Proof.
  rewrite list_migrations_to_downgrade_spec. simpl.
  destruct (history (db w)) as [t|] eqn:Ht; [|done].
  destruct (migrations_dir w) as [entries|]; [|done].
  intros (rest & Hrev)%resolveDowngrade_prefix. exists t, rest.
  assert (NoDup (plan ++ rest)) as Hnd
    by (rewrite <- Hrev, reverse_Permutation; apply NoDup_applied).
  assert (Sorted (flip String.le) (plan ++ rest)) as Hs
    by (rewrite <- Hrev; apply Sorted_reverse, sorted_Sorted).
  split_and!; [done|done| | |].
  - intros f Hf. unfold recorded. rewrite Ht. apply elem_of_applied.
    apply elem_of_reverse. rewrite Hrev. apply elem_of_app. by left.
  - by apply NoDup_app in Hnd as (? & _).
  - clear -Hs. induction plan as [|a plan IH]; [constructor|].
    simpl in Hs. apply Sorted_inv in Hs as [Hs Hhd]. constructor; [auto|].
    destruct plan; [constructor|]. apply HdRel_inv in Hhd. by constructor.
Qed.

Lemma downgrade_plan_shape_witness :
  ∃ rest,
    reverse (sorted (elements (dom (default ∅ (history (db
      (lazy_execute [Sample.m1; Sample.m2; Sample.m3] true Sample.good_world).2))))))
    = [Sample.m3; Sample.m2] ++ rest.
Proof.
  destruct (downgrade_plan_shape
              (lazy_execute [Sample.m1; Sample.m2; Sample.m3] true Sample.good_world).2
              (Some Sample.m1) [Sample.m3; Sample.m2])
    as (t & rest & Ht & Hrev & _); [vm_compute; reflexivity|].
  exists rest. rewrite <- Hrev. do 4 f_equal.
  apply (f_equal (default ∅)) in Ht. exact Ht.
Defined.

(** ** Steps that succeed, and steps the ledger refuses *)


Lemma execute_file_downgrade_ok {St} (file : string) (w : world St)
    entries i e src sch t :
  migrations_dir w = Some entries →
  list_find (λ x, name x = file) entries = Some (i, e) →
  content e = Ok src →
  src_downgrade src (schema (db w)) = (Ok (), sch) →
  history (db w) = Some t →
  execute_file false delete_migration_history file w =
    (Ok file,
     World (Database sch (Some (delete file t))
              (changelog (db w) ++ [(file, false)]))
       None (migrations_dir w) (clock w) (ticks w)
       (log w ++ [Starting file false]) (commits_at_once w)).
Proof.
  intros Hd Hfind Hc Hcap Hh.
  apply (execute_file_ok false file w entries i e src sch t Hd Hfind Hc Hcap Hh).
  done.
Qed.

(** X7. A unit that has a record is not recorded again: its forward change
    runs and returns, the insertion of the record fails on the primary key,
    the unit of work is rolled back and the unit is not yielded. The ledger
    is the one before the step. The schema is what the engine had committed
    of the forward change: nothing with transactional DDL, so that the
    database is the one before the step. *)
Theorem recorded_unit_is_not_recorded_twice {St} (file : string) (w : world St)
    entries i e src sch t at_ :
  migrations_dir w = Some entries →
  list_find (λ x, name x = file) entries = Some (i, e) →
  content e = Ok src →
  src_upgrade src (schema (db w)) = (Ok (), sch) →
  history (db w) = Some t →
  t !! file = Some at_ →
  ∃ err w',
    execute_file true save_migration_history file w = (Raise err, w') ∧
    exn_type err = "IntegrityError" ∧
    history (db w') = history (db w) ∧
    changelog (db w') = changelog (db w) ∧
    schema (db w') = commits_at_once w (schema (db w)) sch ∧
    (transactional_ddl w → db w' = db w) ∧
    txn w' = None ∧
    lazy_execute [file] true w = (([], Some err), w').
Proof.
  destruct w as [[sch0 h cl] tx dir ck tk lg eng]. simpl.
  intros -> Hfind Hc Hcap -> Hl.
  assert (∃ err w',
    execute_file true save_migration_history file
      (World (Database sch0 (Some t) cl) tx (Some entries) ck tk lg eng)
      = (Raise err, w') ∧
    exn_type err = "IntegrityError" ∧
    db w' = Database (eng sch0 sch) (Some t) cl ∧ txn w' = None)
    as (err & w' & Hrun & ? & Hdb & ?).
  { unfold execute_file, apply, load, load_migration_module, Session_begin, bind, ret.
    simpl. rewrite Hfind. simpl. rewrite Hc. simpl.
    unfold call_with_session, save_migration_history, bind, datetime_now,
      session_add, flush; simpl.
    rewrite Hcap. simpl. unfold insert_row. simpl. rewrite Hl. simpl.
    eexists _, _. by split_and!. }
  exists err, w'. rewrite Hdb. split_and!; try done.
  - intros Ht. f_equal. apply (Ht sch0 sch).
  - unfold lazy_execute. simpl. by rewrite Hrun.
Qed.

Lemma recorded_unit_is_not_recorded_twice_witness :
  ∃ err w',
    execute_file true save_migration_history Sample.m1
      (set_db (Database [] (Some {[Sample.m1 := Sample.sample_clock 0]}) [])
         Sample.good_world) = (Raise err, w') ∧
    exn_type err = "IntegrityError" ∧
    history (db w') = Some {[Sample.m1 := Sample.sample_clock 0]} ∧
    schema (db w') = ["t1"]%string.
Proof.
  destruct (recorded_unit_is_not_recorded_twice Sample.m1
              (set_db (Database [] (Some {[Sample.m1 := Sample.sample_clock 0]}) [])
                 Sample.good_world)
              Sample.good_dir 1%nat
              (DirEntry Sample.m1 true
                 (Ok (ModuleSource (Sample.create_table "t1") (Sample.drop_table "t1"))))
              (ModuleSource (Sample.create_table "t1") (Sample.drop_table "t1"))
              ["t1"]%string {[Sample.m1 := Sample.sample_clock 0]}
              (Sample.sample_clock 0))
    as (err & w' & Hrun & Hty & Hh & _ & Hsch & _); [vm_compute; reflexivity..|].
  by exists err, w'.
Defined.

(** X8. The executor does not ask the ledger before it reverts. When the
    backward change of a unit without a record succeeds, the change is
    committed and the ledger table is left exactly as it was. *)
Theorem unrecorded_unit_is_still_reverted {St} (file : string) (w : world St)
    entries i e src sch t :
  migrations_dir w = Some entries →
  list_find (λ x, name x = file) entries = Some (i, e) →
  content e = Ok src →
  src_downgrade src (schema (db w)) = (Ok (), sch) →
  history (db w) = Some t →
  t !! file = None →
  ∃ w',
    lazy_execute [file] false w = (([file], None), w') ∧
    schema (db w') = sch ∧
    history (db w') = Some t.
Proof.
  intros Hd Hfind Hc Hcap Ht Hl. unfold lazy_execute. simpl.
  rewrite (execute_file_downgrade_ok file w entries i e src sch t) by done.
  eexists. split_and!; [done..|]. simpl. by rewrite delete_id.
Qed.

Lemma unrecorded_unit_is_still_reverted_witness :
  ∃ w',
    lazy_execute [Sample.m1] false
      (set_db (Database ["t1"]%string (Some ∅) []) Sample.good_world)
    = (([Sample.m1], None), w') ∧
    schema (db w') = [] ∧ history (db w') = Some ∅.
Proof.
  apply (unrecorded_unit_is_still_reverted Sample.m1
           (set_db (Database ["t1"]%string (Some ∅) []) Sample.good_world)
           Sample.good_dir 1%nat
           (DirEntry Sample.m1 true
              (Ok (ModuleSource (Sample.create_table "t1") (Sample.drop_table "t1"))))
           (ModuleSource (Sample.create_table "t1") (Sample.drop_table "t1"))
           [] ∅); vm_compute; reflexivity.
Defined.

(** ** Applying and reverting *)

(** X6. Round trip. When a unit is applied and then reverted, the ledger
    table is again what it was before: the same records with the same
    times. *)
Theorem apply_then_revert_restores_ledger {St} (file : string) (w w1 w2 : world St) :
  lazy_execute [file] true w = (([file], None), w1) →
  lazy_execute [file] false w1 = (([file], None), w2) →
  history (db w2) = history (db w) ∧
  (list_applied_migration_files w2).1 = (list_applied_migration_files w).1.
Proof.
  unfold lazy_execute. simpl. intros Hup Hdown.
  pose proof (execute_file_cases true file w) as H1. simpl in H1.
  destruct (execute_file true save_migration_history file w) as [[y|err] wa]; [|done].
  destruct H1 as (-> & ? & ? & ? & ? & sch & t & _ & _ & _ & _ & Ht & Hfresh & ->).
  injection Hup as <-.
  pose proof (execute_file_cases false file
                (add_log (Finished file true)
                   (World (Database sch (Some (<[file:=clock w (ticks w)]> t))
                             (changelog (db w) ++ [(file, true)]))
                      None (migrations_dir w) (clock w) (S (ticks w))
                      (log w ++ [Starting file true]) (commits_at_once w)))) as H2.
  simpl in H2.
  destruct (execute_file false delete_migration_history file _) as [[y'|err] wb];
    [|done].
  destruct H2 as (-> & ? & ? & ? & ? & sch' & t' & _ & _ & _ & _ & Ht' & _ & ->).
  injection Hdown as <-. simpl in Ht'. injection Ht' as <-.
  assert (history (db w) = Some (delete file (<[file:=clock w (ticks w)]> t))) as Heq.
  { rewrite delete_insert_eq, delete_id by auto. exact Ht. }
  split.
  - simpl. by rewrite Heq.
  - rewrite !list_applied_migration_files_spec. simpl. by rewrite Heq.
Qed.

Lemma apply_then_revert_restores_ledger_witness :
  history (db (lazy_execute [Sample.m1] false
                 (lazy_execute [Sample.m1] true Sample.good_world).2).2)
  = history (db Sample.good_world).
Proof.
  apply (apply_then_revert_restores_ledger Sample.m1 Sample.good_world
           (lazy_execute [Sample.m1] true Sample.good_world).2
           (lazy_execute [Sample.m1] false
              (lazy_execute [Sample.m1] true Sample.good_world).2).2);
    vm_compute; reflexivity.
Defined.

(** ** Units that cannot be loaded *)

(** X9. A unit that cannot be loaded, because its file is gone or is not a
    module with both functions, ends the run with the exception of the load.
    The units before it stay recorded, no unit of work is opened for it, and
    nothing after it is started. *)
Theorem unloadable_unit_aborts_run {St} (flag : bool) (w w1 : world St)
    (pre post : list string) (uk : string) (e : exn) :
  lazy_execute pre flag w = ((pre, None), w1) →
  (load uk w1).1 = Raise e →
  lazy_execute (pre ++ uk :: post) flag w =
    ((pre, Some e), add_log (Starting uk flag) w1).
Proof.
  unfold lazy_execute. intros Hpre Hload.
  rewrite execute_loop_app, Hpre. simpl.
  assert (execute_file flag
            (if flag then save_migration_history else delete_migration_history)
            uk w1 = (Raise e, add_log (Starting uk flag) w1)) as ->.
  { unfold execute_file, bind. simpl. revert Hload.
    unfold load, load_migration_module. simpl.
    destruct (migrations_dir w1) as [entries|]; simpl; [|by intros [= ->]].
    destruct (list_find _ entries) as [[i x]|]; simpl; [|by intros [= ->]].
    destruct (content x); simpl; [done|by intros [= ->]]. }
  by rewrite app_nil_r.
Qed.

Lemma unloadable_unit_aborts_run_witness :
  lazy_execute ([Sample.m1] ++ "missing.py" :: [Sample.m3]) true Sample.good_world =
    (([Sample.m1], Some (FileNotFoundError "missing.py")),
     add_log (Starting "missing.py" true)
       (lazy_execute [Sample.m1] true Sample.good_world).2).
Proof.
  apply (unloadable_unit_aborts_run true Sample.good_world
           (lazy_execute [Sample.m1] true Sample.good_world).2
           [Sample.m1] [Sample.m3] "missing.py" (FileNotFoundError "missing.py"));
    vm_compute; reflexivity.
Defined.

(** A missing file whose name has no suffix of a module is refused before
    the file system is asked. *)
Example missing_file_without_module_suffix :
  (load "20240115_1000_00000001__first" Sample.good_world).1 =
    Raise (TypeError "failed to create spec for : 20240115_1000_00000001__first").
Proof. vm_compute. reflexivity. Qed.

(** ** Running a plan and resolving again *)

(** However an upgrade run ends, it yielded an initial part of its files,
    and the ledger gained exactly the files it yielded. *)
Lemma execute_loop_upgrade_progress {St} files (w w' : world St) ys oe :
  execute_loop true save_migration_history files w = ((ys, oe), w') →
  ∃ rest,
    files = ys ++ rest ∧
    recorded (db w') = list_to_set ys ∪ recorded (db w) ∧
    migrations_dir w' = migrations_dir w ∧
    (is_Some (history (db w)) → is_Some (history (db w'))) ∧
    (oe = None → rest = []) ∧
    (is_Some oe → rest ≠ []).
Proof.
  revert w ys. induction files as [|f files IH]; intros w ys; simpl.
  - intros [= <- <- <-]. exists [].
    split_and!; [done| |done|done|done|by intros []].
    symmetry. apply (left_id_L (∅ : gset string) (∪)).
  - pose proof (execute_file_cases true f w) as Hstep. simpl in Hstep.
    destruct (execute_file true save_migration_history f w) as [[y|err] wa].
    + destruct Hstep as (-> & entries & i & e & src & sch & t & Hd & _ & _ & _ & Hh & Hfresh & ->).
      destruct (execute_loop _ _ files _) as [[ys' e'] wb] eqn:Hrest.
      intros [= <- <- <-].
      apply IH in Hrest as (rest & -> & Hrec & Hdir & Hsome & Hnone & Hfail).
      simpl in *. exists rest. split_and!; try done.
      * rewrite Hrec. unfold recorded. simpl. rewrite Hh, dom_insert_L.
        apply set_eq. intros x. rewrite !elem_of_union. tauto.
      * intros _. apply Hsome. by eexists.
    + destruct Hstep as (Hdb & _ & _ & _ & Hdir & _).
      intros [= <- <- <-]. exists (f :: files). split_and!; try done.
      * unfold recorded. rewrite Hdb. symmetry. apply (left_id_L (∅ : gset string) (∪)).
      * by rewrite Hdb.
Qed.

Lemma recorded_Some {St} (d : database St) :
  is_Some (history d) → ∃ t, history d = Some t ∧ dom t = recorded d.
Proof. intros [t Ht]. exists t. unfold recorded. by rewrite Ht. Qed.

(** X4. Idempotence. When the plan of an upgrade without target has been run
    to its end, the next plan is empty. *)
Theorem upgrade_twice_plans_nothing {St} (w w' : world St) plan ys :
  (list_migrations_to_upgrade None w).1 = Ok plan →
  lazy_execute plan true w = ((ys, None), w') →
  (list_migrations_to_upgrade None w').1 = Ok [].
Proof.
  rewrite !list_migrations_to_upgrade_spec. simpl.
  destruct (history (db w)) as [t|] eqn:Ht; [|done].
  destruct (migrations_dir w) as [entries|] eqn:Hd; [|done].
  intros [= <-] Hrun. unfold lazy_execute in Hrun.
  apply execute_loop_upgrade_progress in Hrun
    as (rest & Hplan & Hrec & Hdir & Hsome & Hnone & _).
  rewrite (Hnone eq_refl), app_nil_r in Hplan. subst ys.
  destruct (recorded_Some (db w')) as (t' & Ht' & Hdom); [apply Hsome; by eexists|].
  rewrite Ht', Hdir, Hd. unfold resolveUpgrade. simpl. f_equal.
  apply filter_Forall_not, Forall_forall. intros f Hf Hnew. apply Hnew.
  apply elem_of_applied. rewrite Hdom, Hrec. apply elem_of_union.
  destruct (decide (f ∈ sorted (elements (dom t)))) as [Happ|Happ].
  - right. unfold recorded. rewrite Ht. by apply elem_of_applied.
  - left. apply elem_of_list_to_set, list_elem_of_filter. done.
Qed.

Lemma upgrade_twice_plans_nothing_witness :
  (list_migrations_to_upgrade None
     (lazy_execute [Sample.m1; Sample.m2; Sample.m3] true Sample.good_world).2).1
  = Ok [].
Proof.
  apply (upgrade_twice_plans_nothing Sample.good_world
           (lazy_execute [Sample.m1; Sample.m2; Sample.m3] true Sample.good_world).2
           [Sample.m1; Sample.m2; Sample.m3] [Sample.m1; Sample.m2; Sample.m3]);
    vm_compute; reflexivity.
Defined.

Lemma filter_not_in_prefix (ys rest : list string) :
  NoDup (ys ++ rest) → filter (λ f, f ∉ ys) (ys ++ rest) = rest.
Proof.
  intros (_ & Hdisj & _)%NoDup_app. rewrite filter_app.
  rewrite filter_Forall_not by (apply Forall_forall; auto).
  rewrite filter_Forall; [done|]. apply Forall_forall. intros x Hx Hy.
  by apply (Hdisj x).
Qed.

(** X5. Resuming. In a directory whose names are distinct, when the run of
    the plan of an upgrade without target ends in an exception, the next
    plan is the part of the plan that was not yielded, the failed unit
    first. *)
Theorem failed_upgrade_resumes_at_failure {St} (w w' : world St) entries plan ys e :
  migrations_dir w = Some entries →
  NoDup (name <$> entries) →
  (list_migrations_to_upgrade None w).1 = Ok plan →
  lazy_execute plan true w = ((ys, Some e), w') →
  ∃ rest,
    plan = ys ++ rest ∧ rest ≠ [] ∧
    (list_migrations_to_upgrade None w').1 = Ok rest.
Proof.
  intros Hd Hnames. rewrite !list_migrations_to_upgrade_spec. simpl. rewrite Hd.
  destruct (history (db w)) as [t|] eqn:Ht; [|done].
  intros [= <-] Hrun. unfold lazy_execute in Hrun. unfold resolveUpgrade in Hrun.
  simpl in Hrun.
  set (applied := sorted (elements (dom t))) in *.
  set (discovered := sorted (name <$> filter is_migration_file entries)) in *.
  apply execute_loop_upgrade_progress in Hrun
    as (rest & Hplan & Hrec & Hdir & Hsome & _ & Hfail).
  exists rest. split_and!; [done|by apply Hfail|].
  destruct (recorded_Some (db w')) as (t' & Ht' & Hdom); [apply Hsome; by eexists|].
  rewrite Ht', Hdir, Hd. unfold resolveUpgrade. simpl. fold discovered. f_equal.
  assert (NoDup discovered) as Hnd.
  { unfold discovered. rewrite sorted_Permutation.
    eapply sublist_NoDup; [exact Hnames|].
    apply fmap_sublist, sublist_filter. }
  transitivity (filter (λ f, f ∉ ys) (filter (λ f, f ∉ applied) discovered)).
  - rewrite list_filter_filter. apply list_filter_iff. intros f.
    rewrite elem_of_applied, Hdom, Hrec, elem_of_union, elem_of_list_to_set.
    unfold recorded. rewrite Ht. unfold applied. rewrite elem_of_applied. tauto.
  - rewrite Hplan. apply filter_not_in_prefix. rewrite <- Hplan.
    by apply NoDup_filter.
Qed.

Lemma failed_upgrade_resumes_at_failure_witness :
  ∃ rest,
    [Sample.m1; Sample.m2; Sample.m3; Sample.bad1; Sample.bad2] =
      [Sample.m1; Sample.m2; Sample.m3] ++ rest ∧ rest ≠ [] ∧
    (list_migrations_to_upgrade None
       (lazy_execute [Sample.m1; Sample.m2; Sample.m3; Sample.bad1; Sample.bad2]
          true (set_dir (Some (filter (λ e, name e ≠ ".DS_Store") Sample.sample_dir))
                  Sample.w0)).2).1 = Ok rest.
Proof.
  apply (failed_upgrade_resumes_at_failure
           (set_dir (Some (filter (λ e, name e ≠ ".DS_Store") Sample.sample_dir))
              Sample.w0)
           _ (filter (λ e, name e ≠ ".DS_Store") Sample.sample_dir)
           _ _ (OperationalError "incomplete input")).
  - reflexivity.
  - vm_compute. repeat (constructor; [rewrite ?elem_of_cons, elem_of_nil; intuition discriminate|]).
    constructor.
  - vm_compute. reflexivity.
  - vm_compute. reflexivity.
Defined.

(** A downgrade run that comes to its end yielded every file and removed
    exactly their records. *)
Lemma execute_loop_downgrade_completes {St} files (w w1 : world St) ys :
  execute_loop false delete_migration_history files w = ((ys, None), w1) →
  ys = files ∧
  recorded (db w1) = recorded (db w) ∖ list_to_set files ∧
  migrations_dir w1 = migrations_dir w ∧
  (is_Some (history (db w)) → is_Some (history (db w1))).
Proof.
  revert w ys. induction files as [|f files IH]; intros w ys; simpl.
  - intros [= <- <-]. split_and!; [done| |done|done].
    apply set_eq. intros x. rewrite elem_of_difference, elem_of_empty. tauto.
  - pose proof (execute_file_cases false f w) as Hstep. simpl in Hstep.
    destruct (execute_file false delete_migration_history f w) as [[y|err] wa]; [|done].
    destruct Hstep as (-> & entries & i & e & src & sch & t & Hd & _ & _ & _ & Hh & _ & ->).
    destruct (execute_loop _ _ files _) as [[ys' e'] wb] eqn:Hrest.
    intros [= <- -> <-].
    apply IH in Hrest as (-> & Hrec & Hdir & Hsome). simpl in *.
    split_and!; [done| |done|].
    + rewrite Hrec. unfold recorded. simpl. rewrite Hh, dom_delete_L.
      apply set_eq. intros x.
      rewrite !elem_of_difference, elem_of_union, elem_of_singleton. tauto.
    + intros _. apply Hsome. by eexists.
Qed.

Lemma last_or_empty_snoc (l : list string) x :
  match l ++ [x] with
  | [] => ""
  | k => List.last k ""
  end = x.
Proof.
  destruct (l ++ [x]) as [|a k] eqn:E; [by destruct l|].
  rewrite <- E. apply List.last_last.
Qed.

(** X10. The target of a downgrade becomes the current revision: when the
    plan of a downgrade to a target has been run to its end, the current
    revision is the target. *)
Theorem downgrade_makes_target_current {St} (w w' : world St) target plan ys :
  target ≠ "" →
  (list_migrations_to_downgrade (Some target) w).1 = Ok plan →
  lazy_execute plan false w = ((ys, None), w') →
  (get_current_revision w').1 = Ok target ∧
  recorded (db w') = recorded (db w) ∖ list_to_set plan ∧
  target ∈ recorded (db w').
Proof.
  intros Hne. rewrite list_migrations_to_downgrade_spec. simpl.
  destruct (history (db w)) as [t|] eqn:Ht; [|done].
  destruct (migrations_dir w) as [entries|] eqn:Hd; [|done].
  set (applied := sorted (elements (dom t))).
  unfold resolveDowngrade. rewrite truthy_str_Some by done.
  case_decide; [done|].
  destruct (list_index target (reverse applied)) as [i|] eqn:Hi; [|done].
  pose proof (list_index_Ok _ _ _ Hi) as (Hin & _ & Hnin).
  pose proof (list_index_split _ _ _ Hi) as Hsplit.
  rewrite decide_True by done. intros [= <-] Hrun.
  set (plan := take i (reverse applied)) in *.
  set (rest := drop (S i) (reverse applied)) in *.
  unfold lazy_execute in Hrun.
  apply execute_loop_downgrade_completes in Hrun as (_ & Hrec & Hdir & Hsome).
  destruct (recorded_Some (db w')) as (t' & Ht' & Hdom);
    [apply Hsome; rewrite Ht; by eexists|].
  assert (recorded (db w) = dom t) as Hrec0 by (unfold recorded; by rewrite Ht).
  assert (applied = reverse (target :: rest) ++ reverse plan) as Happ.
  { rewrite <- reverse_app, <- Hsplit. by rewrite reverse_involutive. }
  assert (NoDup (plan ++ target :: rest)) as Hnd.
  { rewrite <- Hsplit, reverse_Permutation. apply NoDup_applied. }
  assert (∀ x, x ∈ target :: rest ↔ x ∈ dom t' ) as Hmem.
  { intros x. rewrite Hdom, Hrec, Hrec0, elem_of_difference, elem_of_list_to_set.
    rewrite <- elem_of_applied. fold applied.
    rewrite <- (elem_of_reverse x applied), Hsplit, elem_of_app.
    apply NoDup_app in Hnd as (_ & Hdisj & _). split; [|tauto].
    intros Hx. split; [by right|]. intros Hp. by apply (Hdisj x). }
  assert (sorted (elements (dom t')) = reverse (target :: rest)) as Happ'.
  { apply sorted_unique.
    - apply StronglySorted_Sorted.
      apply (StronglySorted_app_1_l String.le _ (reverse plan)).
      rewrite <- Happ. apply sorted_StronglySorted.
    - apply NoDup_Permutation.
      + rewrite reverse_Permutation. by apply NoDup_app in Hnd as (_ & _ & ?).
      + apply NoDup_elements.
      + intros x. by rewrite elem_of_reverse, elem_of_elements, Hmem. }
  split_and!.
  - rewrite get_current_revision_spec, Ht'. cbn [fst]. rewrite Happ'.
    rewrite reverse_cons. f_equal. apply last_or_empty_snoc.
  - done.
  - rewrite <- Hdom. apply Hmem, list_elem_of_here.
Qed.

Lemma downgrade_makes_target_current_witness :
  (get_current_revision
     (lazy_execute [Sample.m3; Sample.m2] false
        (lazy_execute [Sample.m1; Sample.m2; Sample.m3] true
           Sample.good_world).2).2).1 = Ok Sample.m1.
Proof.
  apply (downgrade_makes_target_current
           (lazy_execute [Sample.m1; Sample.m2; Sample.m3] true Sample.good_world).2
           (lazy_execute [Sample.m3; Sample.m2] false
              (lazy_execute [Sample.m1; Sample.m2; Sample.m3] true
                 Sample.good_world).2).2
           Sample.m1 [Sample.m3; Sample.m2] [Sample.m3; Sample.m2]);
    [discriminate|vm_compute; reflexivity..].
Defined.

(** ** Constructing the tool *)

(** X11. Constructing a tool. Without the directory the construction raises
    before it touches the database, also when it was told to create the
    table. A construction that returns leaves a world with the directory and
    the table, the records and the schema as before, and changes nothing at
    all when the table was there. With the directory but without the table,
    and not told to create it, the construction raises and changes
    nothing. *)
Theorem tool_construction {St} (b : bool) (w : world St) :
  (migrations_dir w = None →
     ∃ e, MigrationTool_init b w = (Raise e, w) ∧
          exn_type e = "MigrationsToolError") ∧
  (∀ w', MigrationTool_init b w = (Ok (), w') →
     is_Some (migrations_dir w') ∧ is_Some (history (db w')) ∧
     recorded (db w') = recorded (db w) ∧ schema (db w') = schema (db w) ∧
     changelog (db w') = changelog (db w) ∧
     (is_Some (history (db w)) → w' = w)) ∧
  (is_Some (migrations_dir w) → history (db w) = None →
     ∃ e, MigrationTool_init false w = (Raise e, w) ∧
          exn_type e = "MigrationsToolError").
Proof.
  destruct w as [[sch h cl] tx dir ck tk lg eng]. simpl. split_and!.
  - intros ->. by eexists.
  - intros w'. destruct dir as [entries|], h as [t|], b; vm_compute;
      intros [= <-]; split_and!; try done; try by eexists.
    all: by intros [? [=]].
  - intros [entries ->] ->. by eexists.
Qed.

Lemma tool_construction_witness :
  ∃ e, MigrationTool_init true (set_dir None Sample.uninitialised)
       = (Raise e, set_dir None Sample.uninitialised) ∧
       exn_type e = "MigrationsToolError".
Proof.
  destruct (tool_construction true (set_dir None Sample.uninitialised)) as [H _].
  apply H. reflexivity.
Defined.

(** X17. The [init] command on a database that has the ledger table never
    gets past the construction of the tool: it raises, no file is generated
    and no unit is run. *)
Theorem init_refuses_initialised_database {St} (w : world St) t :
  history (db w) = Some t →
  ∃ e, cli_init w = (Raise e, w).
Proof.
  destruct w as [[sch h cl] tx dir ck tk lg eng]. simpl. intros ->.
  destruct dir; by eexists.
Qed.

Lemma init_refuses_initialised_database_witness :
  ∃ e, cli_init Sample.w0 = (Raise e, Sample.w0).
Proof. apply (init_refuses_initialised_database Sample.w0 ∅). reflexivity. Defined.

(** ** Methods that only read *)

Lemma get_tool_false_ok {St} (w : world St) t entries :
  history (db w) = Some t → migrations_dir w = Some entries →
  get_tool false w = (Ok (), w).
Proof.
  destruct w as [[sch h cl] tx dir ck tk lg eng]. simpl. by intros -> ->.
Qed.

Lemma list_all_migrations_world {St} strptime limit (w : world St) :
  (list_all_migrations strptime limit w).2 = set_txn None w.
Proof.
  unfold list_all_migrations. unfold bind at 1. rewrite history_rows_spec.
  destruct (history (db w)) as [t|] eqn:Ht; [|done].
  destruct (history_query limit t) as [rows|]; [|done].
  unfold bind at 1. unfold lift at 1.
  destruct (comprehension_map _ rows); [|done].
  unfold bind at 1. rewrite list_migrations_to_upgrade_spec. simpl. rewrite Ht.
  destruct (migrations_dir w); [|by destruct w].
  destruct (resolveUpgrade _ _ None); [|by destruct w].
  unfold bind, lift, ret. destruct (comprehension_map _ _); by destruct w.
Qed.

(** X15. Resolution, listing and the status report only read the database
    and the directory. Whatever their arguments and whether they return or
    raise, the committed database, the entries of the directory and the
    number of readings of the clock are afterwards what they were before: no
    record is written, no file is touched, no unit is run. *)
Theorem read_methods_change_nothing {St} strptime (w : world St) target limit :
  let unchanged (w' : world St) :=
    db w' = db w ∧ migrations_dir w' = migrations_dir w ∧ ticks w' = ticks w in
  unchanged (list_existing_migration_files w).2 ∧
  unchanged (list_applied_migration_files w).2 ∧
  unchanged (list_migrations_to_upgrade target w).2 ∧
  unchanged (list_migrations_to_downgrade target w).2 ∧
  unchanged (get_current_revision w).2 ∧
  unchanged (list_all_migrations strptime limit w).2.
Proof.
  intros unchanged.
  assert (unchanged w) as Hsame by by unfold unchanged.
  assert (unchanged (set_txn None w)) as Hclosed by by unfold unchanged.
  assert ((list_existing_migration_files w).2 = w) as ->
    by (unfold list_existing_migration_files; by destruct (migrations_dir w)).
  rewrite list_applied_migration_files_spec, list_migrations_to_upgrade_spec,
    list_migrations_to_downgrade_spec, get_current_revision_spec,
    list_all_migrations_world.
  by split_and!.
Qed.

(** ** Generated files *)

Lemma digit_not_separator d :
  0 ≤ d ≤ 9 → digit d ≠ "_"%char ∧ digit d ≠ "."%char.
Proof.
  intros Hd.
  assert (d = 0 ∨ d = 1 ∨ d = 2 ∨ d = 3 ∨ d = 4 ∨ d = 5 ∨ d = 6 ∨ d = 7 ∨
          d = 8 ∨ d = 9) as Hcases by lia.
  destruct_or!; subst d; by vm_compute.
Qed.





Lemma chars_app (s1 s2 : string) :
  list_ascii_of_string (s1 +:+ s2) =
  list_ascii_of_string s1 ++ list_ascii_of_string s2.
Proof.
  induction s1 as [|c s1 IH]; [reflexivity|].
  change (c :: list_ascii_of_string (s1 +:+ s2) =
          c :: (list_ascii_of_string s1 ++ list_ascii_of_string s2)).
  by f_equal.
Qed.









(** A description with a slash names a file in a directory that is not
    there: nothing is written. *)
Example generate_migration_with_slash :
  generate_migration "fix a/b" Sample.good_world =
    (Raise (FileNotFoundError "20240115_1030_00000000__fix_a/b.py"),
     (datetime_now Sample.good_world).2).
Proof. vm_compute. reflexivity. Qed.

(** ** The downgrade command and its count *)

Lemma list_index_NoDup (l : list string) i x :
  NoDup l → l !! i = Some x → list_index x l = Ok i.
Proof.
  intros Hnd Hl.
  destruct (list_index_elem_of x l) as (j & Hj & Hlj & _);
    [by eapply list_elem_of_lookup_2|].
  rewrite Hj. f_equal. by eapply NoDup_lookup.
Qed.

Lemma py_getitem_from_end (l : list string) (n : Z) :
  0 ≤ n →
  py_getitem l (- (n + 1)) =
    match reverse l !! Z.to_nat n with
    | Some x => Ok x
    | None => Raise (IndexError "list index out of range")
    end.
Proof.
  intros Hn. unfold py_getitem.
  assert ((- (n + 1) <? 0) = true) as -> by lia.
  destruct (decide (n < Z.of_nat (length l))) as [Hlt|Hge].
  - assert ((0 <=? - (n + 1) + Z.of_nat (length l))
            && (- (n + 1) + Z.of_nat (length l) <? Z.of_nat (length l)) = true)
      as -> by (apply andb_true_iff; lia).
    rewrite reverse_lookup by lia.
    replace (Z.to_nat (- (n + 1) + Z.of_nat (length l)))
      with (length l - S (Z.to_nat n))%nat; [done|lia].
  - assert ((0 <=? - (n + 1) + Z.of_nat (length l))
            && (- (n + 1) + Z.of_nat (length l) <? Z.of_nat (length l)) = false)
      as -> by (apply andb_false_iff; lia).
    rewrite lookup_ge_None_2; [done|]. rewrite length_reverse. lia.
Qed.

(** X16. The count of the [downgrade] command. Without [--filename] and with
    a count [n] that is not negative, the command plans to revert the [n]
    most recently applied units, most recent first, provided more than [n]
    units are applied and the unit that stays on top is still in the
    directory; the oldest applied unit therefore is never part of such a
    plan. With [n] or fewer units applied the command raises [IndexError].
    Either way the database is not changed. *)
Theorem downgrade_by_count {St} (w : world St) t entries (n : Z) :
  txn w = None →
  history (db w) = Some t → migrations_dir w = Some entries →
  0 ≤ n →
  let applied := sorted (elements (dom t)) in
  let discovered := sorted (name <$> filter is_migration_file entries) in
  (∀ target,
     reverse applied !! Z.to_nat n = Some target →
     target ≠ "" → target ∈ discovered →
     cli_downgrade_files None n w = (Ok (take (Z.to_nat n) (reverse applied)), w)) ∧
  (Z.of_nat (length applied) ≤ n →
     cli_downgrade_files None n w =
       (Raise (IndexError "list index out of range"), w)).
Proof.
  intros Htx Ht Hd Hn applied discovered.
  assert (cli_downgrade_files None n w =
    match py_getitem applied (- (n + 1)) with
    | Ok target => list_migrations_to_downgrade (Some target) w
    | Raise e => (Raise e, w)
    end) as Hunfold.
  { unfold cli_downgrade_files. unfold bind at 1.
    rewrite (get_tool_false_ok w t entries) by done.
    unfold bind at 1. simpl. unfold bind at 1.
    rewrite list_applied_migration_files_spec, Ht, set_txn_None_id by done.
    unfold lift. fold applied. by destruct (py_getitem applied (- (n + 1))). }
  rewrite Hunfold. rewrite py_getitem_from_end by done. split.
  - intros target Hl Hne Hin. rewrite Hl.
    rewrite list_migrations_to_downgrade_spec, Ht, Hd, set_txn_None_id by done.
    fold applied discovered. f_equal.
    apply resolveDowngrade_target; [done..|].
    apply list_index_NoDup; [|done].
    rewrite reverse_Permutation. apply NoDup_applied.
  - intros Hlen. rewrite lookup_ge_None_2; [done|]. rewrite length_reverse. lia.
Qed.

Lemma downgrade_by_count_witness :
  cli_downgrade_files None 1
    (lazy_execute [Sample.m1; Sample.m2; Sample.m3] true Sample.good_world).2
  = (Ok [Sample.m3],
     (lazy_execute [Sample.m1; Sample.m2; Sample.m3] true Sample.good_world).2).
Proof.
  destruct (downgrade_by_count
              (lazy_execute [Sample.m1; Sample.m2; Sample.m3] true Sample.good_world).2
              (default ∅ (history (db (lazy_execute [Sample.m1; Sample.m2; Sample.m3]
                                         true Sample.good_world).2)))
              Sample.good_dir 1) as [H _];
    [vm_compute; reflexivity..|lia|].
  rewrite (H Sample.m2); [vm_compute; reflexivity|vm_compute; reflexivity|discriminate|].
  apply elem_of_sorted, list_elem_of_In. vm_compute. tauto.
Defined.

(** ** Names and their parts *)

Lemma string_app_assoc (s1 s2 s3 : string) :
  (s1 +:+ s2) +:+ s3 = s1 +:+ (s2 +:+ s3).
Proof.
  induction s1 as [|c s1 IH]; [reflexivity|].
  change (String c ((s1 +:+ s2) +:+ s3) = String c (s1 +:+ (s2 +:+ s3))).
  by f_equal.
Qed.

Lemma take_string_app (p s : string) : take_string (String.length p) (p +:+ s) = p.
Proof.
  induction p as [|c p IH]; [reflexivity|].
  change (String c (take_string (String.length p) (p +:+ s)) = String c p).
  by f_equal.
Qed.

Lemma drop_string_app (p s : string) k :
  drop_string (String.length p + k) (p +:+ s) = drop_string k s.
Proof. induction p as [|c p IH]; [reflexivity|exact IH]. Qed.

(** A separator is not found inside a part that lacks its first character. *)
Lemma find_sep_skip (c0 : ascii) (sep' p s : string) :
  Forall (λ c, c ≠ c0) (list_ascii_of_string p) →
  find_sep (String c0 sep') (p +:+ s) =
    Nat.add (String.length p) <$> find_sep (String c0 sep') s.
Proof.
  induction p as [|c p IH]; intros Hp.
  - change ("" +:+ s) with s. by destruct (find_sep _ s).
  - apply Forall_cons in Hp as [Hc Hp].
    change (String c p +:+ s) with (String c (p +:+ s)).
    change (find_sep (String c0 sep') (String c (p +:+ s)))
      with (if String.prefix (String c0 sep') (String c (p +:+ s)) then Some 0%nat
            else S <$> find_sep (String c0 sep') (p +:+ s)).
    change (String.prefix (String c0 sep') (String c (p +:+ s)))
      with (if ascii_dec c0 c then String.prefix sep' (p +:+ s) else false).
    destruct (ascii_dec c0 c) as [Heq|_]; [by destruct Hc|].
    rewrite (IH Hp). by destruct (find_sep _ s).
Qed.

(** A single underscore in front of another character is not the double
    underscore. *)
Lemma find_sep_single_underscore (p s : string) c p' :
  p = String c p' → Forall (λ c, c ≠ "_"%char) (list_ascii_of_string p) →
  find_sep "__" ("_" +:+ p +:+ s) =
    Nat.add (S (String.length p)) <$> find_sep "__" s.
Proof.
  intros Hp Hall.
  pose proof (find_sep_skip "_" "_" p s Hall) as Hskip.
  assert (c ≠ "_"%char) as Hc by (subst p; by apply Forall_cons in Hall as [? _]).
  subst p.
  change ("_" +:+ String c p' +:+ s) with (String "_" (String c (p' +:+ s))).
  change (find_sep "__" (String "_" (String c (p' +:+ s))))
    with (if String.prefix "__" (String "_" (String c (p' +:+ s))) then Some 0%nat
          else S <$> find_sep "__" (String c (p' +:+ s))).
  change (String.prefix "__" (String "_" (String c (p' +:+ s))))
    with (if ascii_dec "_" "_"
          then (if ascii_dec "_" c then String.prefix "" (p' +:+ s) else false)
          else false).
  destruct (ascii_dec "_" "_") as [_|Hne]; [|done].
  destruct (ascii_dec "_" c) as [Heq|_]; [by destruct Hc|].
  change (String c (p' +:+ s)) with (String c p' +:+ s).
  rewrite Hskip. by destruct (find_sep "__" s).
Qed.

Lemma zero_pad_chars w n :
  0 ≤ n < 10 ^ Z.of_nat w →
  Forall (λ c, c ≠ "_"%char ∧ c ≠ "."%char) (list_ascii_of_string (zero_pad w n)).
Proof.
  revert n. induction w as [|w IH]; intros n Hn; [constructor|].
  rewrite Nat2Z.inj_succ, Z.pow_succ_r in Hn by lia.
  assert (0 < 10 ^ Z.of_nat w) as Hpos by (apply Z.pow_pos_nonneg; lia).
  cbn [zero_pad list_ascii_of_string]. constructor.
  - apply digit_not_separator. split.
    + apply Z.div_pos; lia.
    + apply Z.lt_succ_r. apply Z.div_lt_upper_bound; lia.
  - apply IH. by apply Z.mod_pos_bound.
Qed.

Lemma zero_pad_no_underscore w n :
  0 ≤ n < 10 ^ Z.of_nat w →
  Forall (λ c, c ≠ "_"%char) (list_ascii_of_string (zero_pad w n)).
Proof.
  intros Hn. eapply Forall_impl; [by apply zero_pad_chars|]. by intros c [? _].
Qed.

Lemma zero_pad_no_dot w n :
  0 ≤ n < 10 ^ Z.of_nat w →
  Forall (λ c, c ≠ "."%char) (list_ascii_of_string (zero_pad w n)).
Proof.
  intros Hn. eapply Forall_impl; [by apply zero_pad_chars|]. by intros c [_ ?].
Qed.

(** The stamp holds no dot, and the first double underscore of a stamp
    followed by one is the one that follows it. *)
Lemma strftime_no_dot t :
  valid_datetime t →
  Forall (λ c, c ≠ "."%char) (list_ascii_of_string (strftime DATETIME_FMT t)).
Proof.
  intros (? & ? & ? & ? & ? & ? & ?). rewrite strftime_DATETIME_FMT by lia.
  rewrite !chars_app. repeat apply Forall_app_2;
    try (apply zero_pad_no_dot; simpl; lia);
    try (repeat constructor; discriminate).
Qed.

Lemma find_double_underscore_here s : find_sep "__" ("__" +:+ s) = Some 0%nat.
Proof. destruct s; reflexivity. Qed.

Lemma find_double_underscore_after_stamp t s :
  valid_datetime t →
  find_sep "__" (strftime DATETIME_FMT t +:+ "__" +:+ s) = Some 22%nat.
Proof.
  intros (? & ? & ? & ? & ? & ? & ?). rewrite strftime_DATETIME_FMT by lia.
  rewrite !string_app_assoc.
  rewrite !find_sep_skip by (apply zero_pad_no_underscore; simpl; lia).
  rewrite (find_sep_single_underscore (zero_pad 2 (hour t)) _ _ _ eq_refl)
    by (apply zero_pad_no_underscore; simpl; lia).
  rewrite find_sep_skip by (apply zero_pad_no_underscore; simpl; lia).
  rewrite (find_sep_single_underscore (zero_pad 2 (second t)) _ _ _ eq_refl)
    by (apply zero_pad_no_underscore; simpl; lia).
  rewrite find_sep_skip by (apply zero_pad_no_underscore; simpl; lia).
  change ("" +:+ "__" +:+ s) with ("__" +:+ s).
  rewrite find_double_underscore_here, !zero_pad_length. reflexivity.
Qed.

(** X13. Round trip of the name. The name generated at a time within the
    four-digit years, from a description without a dot, parses back to that
    time and to the description with its spaces replaced, whenever [strptime]
    reads back what [strftime] wrote. *)
Theorem parse_generated_filename
    (strptime : string → string → result datetime) (t : datetime)
    (description : string) :
  valid_datetime t →
  strptime (strftime DATETIME_FMT t) DATETIME_FMT = Ok t →
  Forall (λ c, c ≠ "."%char) (list_ascii_of_string description) →
  parse_filename strptime (migration_filename t description) =
    Ok (t, replace_char " " "_" description).
Proof.
  intros Hv Hstrptime Hdot.
  set (d := replace_char " " "_" description).
  assert (Forall (λ c, c ≠ "."%char) (list_ascii_of_string d)) as Hd.
  { unfold d. clear -Hdot. induction description as [|c s IH]; [constructor|].
    apply Forall_cons in Hdot as [Hc Hs]. cbn [replace_char list_ascii_of_string].
    constructor; [|auto]. destruct (Ascii.eqb c " "); [discriminate|done]. }
  set (stem := strftime DATETIME_FMT t +:+ "__" +:+ d).
  assert (migration_filename t description = stem +:+ ".py") as ->.
  { unfold migration_filename, stem. fold d. by rewrite !string_app_assoc. }
  assert (Forall (λ c, c ≠ "."%char) (list_ascii_of_string stem)) as Hstem.
  { unfold stem. rewrite !chars_app. repeat apply Forall_app_2;
      [by apply strftime_no_dot|repeat constructor; discriminate|done]. }
  unfold parse_filename.
  assert (split1 "." (stem +:+ ".py") = [stem; "py"]) as ->.
  { unfold split1. rewrite (find_sep_skip "." "" stem ".py" Hstem).
    change (find_sep "." ".py") with (Some 0%nat). cbn [fmap option_fmap option_map].
    rewrite Nat.add_0_r, take_string_app. f_equal.
    rewrite <- (Nat.add_0_r (String.length stem)) at 1.
    rewrite <- Nat.add_assoc, drop_string_app. reflexivity. }
  cbn [List.hd].
  assert (split1 "__" stem = [strftime DATETIME_FMT t; d]) as ->.
  { unfold split1, stem. rewrite find_double_underscore_after_stamp by done.
    rewrite <- (strftime_length t Hv), take_string_app, drop_string_app. reflexivity. }
  by rewrite Hstrptime.
Qed.

Lemma parse_generated_filename_witness :
  parse_filename Sample.strptime
    (migration_filename (Datetime 2024 1 15 10 30 0 5) "add users table") =
    Ok (Datetime 2024 1 15 10 30 0 5, "add_users_table").
Proof.
  apply (parse_generated_filename Sample.strptime (Datetime 2024 1 15 10 30 0 5)
           "add users table").
  - unfold valid_datetime; simpl; lia.
  - vm_compute. reflexivity.
  - repeat constructor; discriminate.
Defined.

(** Splitting at a separator and joining again gives the string back, and
    the part before the separator of a single character is free of it. *)
Lemma prefix_drop (sep s : string) :
  String.prefix sep s = true → s = sep +:+ drop_string (String.length sep) s.
Proof.
  revert s. induction sep as [|c sep IH]; intros s Hp; [reflexivity|].
  destruct s as [|c' s]; [done|].
  change (String.prefix (String c sep) (String c' s))
    with (if ascii_dec c c' then String.prefix sep s else false) in Hp.
  destruct (ascii_dec c c') as [<-|]; [|done].
  change (String c s = String c (sep +:+ drop_string (String.length sep) s)).
  f_equal. by apply IH.
Qed.

Lemma find_sep_Some (sep s : string) i :
  find_sep sep s = Some i →
  s = take_string i s +:+ sep +:+ drop_string (i + String.length sep) s.
Proof.
  revert i. induction s as [|c s IH]; intros i.
  - cbn [find_sep]. destruct (String.prefix sep "") eqn:Hp; [|done].
    intros [= <-]. by apply prefix_drop.
  - cbn [find_sep]. destruct (String.prefix sep (String c s)) eqn:Hp.
    + intros [= <-]. by apply prefix_drop.
    + destruct (find_sep sep s) as [j|] eqn:Hj; [|done]. intros [= <-].
      change (String c s =
              String c (take_string j s +:+ sep +:+ drop_string (j + String.length sep) s)).
      f_equal. by apply IH.
Qed.

Lemma find_sep_char_first (c0 : ascii) (s : string) i :
  find_sep (String c0 "") s = Some i →
  Forall (λ c, c ≠ c0) (list_ascii_of_string (take_string i s)).
Proof.
  revert i. induction s as [|c s IH]; intros i.
  - cbn [find_sep]. destruct (String.prefix _ ""); [|done]. intros [= <-]. constructor.
  - cbn [find_sep].
    change (String.prefix (String c0 "") (String c s))
      with (if ascii_dec c0 c then String.prefix "" s else false).
    destruct (ascii_dec c0 c) as [<-|Hne].
    + assert (String.prefix "" s = true) as -> by by destruct s.
      intros [= <-]. constructor.
    + destruct (find_sep (String c0 "") s) as [j|] eqn:Hj; [|done]. intros [= <-].
      cbn [take_string list_ascii_of_string]. constructor; [by intros ->|auto].
Qed.

(** X14. What a name that parses looks like. If [parse_filename] returns a
    time and a description, the name is a stamp, a double underscore and
    that description, followed by nothing or by a dot and more; the stamp
    and the description hold no dot, and the time is what [strptime] makes
    of the stamp. *)
Theorem parsed_filename_shape
    (strptime : string → string → result datetime) (filename : string)
    (created : datetime) (description : string) :
  parse_filename strptime filename = Ok (created, description) →
  ∃ stamp rest,
    filename = stamp +:+ "__" +:+ description +:+ rest ∧
    (rest = "" ∨ ∃ ext, rest = "." +:+ ext) ∧
    Forall (λ c, c ≠ "."%char)
      (list_ascii_of_string (stamp +:+ "__" +:+ description)) ∧
    strptime stamp DATETIME_FMT = Ok created.
Proof.
  unfold parse_filename.
  set (stem := List.hd "" (split1 "." filename)).
  assert (∃ rest, filename = stem +:+ rest ∧
                  (rest = "" ∨ ∃ ext, rest = "." +:+ ext) ∧
                  Forall (λ c, c ≠ "."%char) (list_ascii_of_string stem))
    as (rest & Hname & Hrest & Hnodot).
  { unfold stem, split1. destruct (find_sep "." filename) as [i|] eqn:Hi.
    - exists ("." +:+ drop_string (i + 1) filename). split_and!.
      + by apply (find_sep_Some "." filename i).
      + right. by eexists.
      + by apply find_sep_char_first.
    - exists "". split_and!; [|by left|].
      + cbn [List.hd]. clear. induction filename as [|c s IH]; [done|].
        change (String c s = String c (s +:+ "")). by f_equal.
      + cbn [List.hd]. clear -Hi. induction filename as [|c s IH]; [constructor|].
        cbn [find_sep] in Hi.
        change (String.prefix "." (String c s))
          with (if ascii_dec "." c then String.prefix "" s else false) in Hi.
        destruct (ascii_dec "." c) as [<-|Hne].
        * by assert (String.prefix "" s = true) as Hp by (by destruct s); rewrite Hp in Hi.
        * destruct (find_sep "." s); [done|].
          cbn [list_ascii_of_string]. constructor; [by intros ->|auto]. }
  unfold split1. destruct (find_sep "__" stem) as [i|] eqn:Hi; [|done].
  pose proof (find_sep_Some "__" stem i Hi) as Hstem.
  destruct (strptime (take_string i stem) DATETIME_FMT) as [c|] eqn:Hs; [|done].
  intros [= <- <-]. exists (take_string i stem), rest. split_and!; [|done| |done].
  - rewrite Hname at 1. rewrite Hstem at 1. by rewrite !string_app_assoc.
  - rewrite Hstem in Hnodot. exact Hnodot.
Qed.

Lemma parsed_filename_shape_witness :
  ∃ stamp rest,
    Sample.m1 = stamp +:+ "__" +:+ "first" +:+ rest ∧
    Sample.strptime stamp DATETIME_FMT = Ok (Datetime 2024 1 15 10 0 0 1).
Proof.
  destruct (parsed_filename_shape Sample.strptime Sample.m1
              (Datetime 2024 1 15 10 0 0 1) "first")
    as (stamp & rest & Hname & _ & _ & Hs); [vm_compute; reflexivity|].
  by exists stamp, rest.
Defined.

(** ** The status report with a limit *)

Lemma NoDup_order_by_filename (t : gmap string datetime) :
  NoDup (order_by_filename t).*1.
Proof. rewrite order_by_filename_fst. apply NoDup_applied. Qed.

(** With a positive limit the query keeps the last rows of the ascending
    listing, as many as the limit allows. *)
Lemma history_query_positive (n : Z) (t : gmap string datetime) :
  0 < n < 2 ^ 63 →
  history_query (Some n) t =
    Ok (drop (length (order_by_filename t) - Z.to_nat n) (order_by_filename t)).
Proof.
  intros Hn. unfold history_query, sql_limit.
  assert ((n =? 0) = false) as -> by lia.
  assert ((n <? - 2 ^ 63) || (2 ^ 63 <=? n) = false) as ->
    by (apply orb_false_iff; lia).
  assert ((n <? 0) = false) as -> by lia.
  cbn [result_bind]. f_equal.
  set (rows := order_by_filename t).
  set (m := (length rows - Z.to_nat n)%nat).
  rewrite take_reverse. fold m.
  pose proof (NoDup_order_by_filename t) as Hnd. fold rows in Hnd.
  rewrite <- (take_drop m rows) in Hnd at 1.
  rewrite fmap_app in Hnd. apply NoDup_app in Hnd as (_ & Hdisj & _).
  rewrite <- (take_drop m rows) at 1. rewrite filter_app.
  rewrite filter_Forall_not, filter_Forall; [done| |].
  - apply Forall_forall. intros row Hrow.
    apply (list_elem_of_fmap_2 fst). by apply elem_of_reverse.
  - apply Forall_forall. intros row Hrow Hin.
    apply (Hdisj row.1); [apply (list_elem_of_fmap_2 fst); exact Hrow|].
    apply list_elem_of_fmap in Hin as (row' & Heq & Hin).
    rewrite elem_of_reverse in Hin.
    rewrite Heq. apply (list_elem_of_fmap_2 fst). exact Hin.
Qed.

Lemma history_query_subseteq limit (t : gmap string datetime) rows row :
  history_query limit t = Ok rows → row ∈ rows → row ∈ order_by_filename t.
Proof.
  unfold history_query. destruct limit as [n|]; [|by intros [= <-]].
  destruct (n =? 0); [by intros [= <-]|].
  destruct (sql_limit _ _); [|done]. intros [= <-]. by intros [_ ?]%list_elem_of_filter.
Qed.

(** X19. The status report with a positive limit that fits 64 bits. When
    the ledger and the directory are in place and every name parses, the
    report with limit [n] holds the [n] records with the greatest names (all
    of them when there are fewer), in ascending order, followed by the
    pending names. *)
Theorem positive_limit_lists_latest {St}
    (strptime : string → string → result datetime) (w : world St)
    (t : gmap string datetime) entries (created : string → datetime) (n : Z) :
  history (db w) = Some t →
  migrations_dir w = Some entries →
  0 < n < 2 ^ 63 →
  let applied := sorted (elements (dom t)) in
  let discovered := sorted (name <$> filter is_migration_file entries) in
  (∀ f, f ∈ applied ∨ f ∈ discovered →
        ∃ description, parse_filename strptime f = Ok (created f, description)) →
  (list_all_migrations strptime (Some n) w).1 =
    Ok (((λ row, Build_MigrationInfo row.1 (created row.1) (Some row.2))
           <$> drop (length (order_by_filename t) - Z.to_nat n) (order_by_filename t))
        ++ ((λ f, Build_MigrationInfo f (created f) None)
              <$> filter (λ f, f ∉ applied) discovered)).
Proof.
  intros Hh Hd Hn applied discovered Hparse.
  pose proof (history_query_positive n t Hn) as Hq.
  unfold list_all_migrations. unfold bind at 1.
  rewrite history_rows_spec, Hh, Hq. cbn [fst snd]. unfold bind at 1. unfold lift at 1.
  rewrite (comprehension_map_total _
             (λ row, Build_MigrationInfo row.1 (created row.1) (Some row.2))).
  2:{ intros [f at_] Hrow. apply (history_query_subseteq _ _ _ _ Hq) in Hrow. simpl.
      destruct (Hparse f) as [d ->]; [|done]. left.
      apply (list_elem_of_fmap_2 fst) in Hrow. by rewrite order_by_filename_fst in Hrow. }
  unfold bind at 1. rewrite list_migrations_to_upgrade_spec.
  cbn [fst snd db migrations_dir set_txn].
  rewrite Hh, Hd. cbn [resolveUpgrade truthy_str]. fold applied discovered.
  unfold bind, lift.
  rewrite (comprehension_map_total _ (λ f, Build_MigrationInfo f (created f) None)).
  2:{ intros f [_ Hf]%list_elem_of_filter. destruct (Hparse f) as [d ->]; auto. }
  done.
Qed.

Lemma positive_limit_lists_latest_witness :
  info_filename <$>
    default [] (match (list_all_migrations Sample.strptime (Some 1)
                         (lazy_execute [Sample.m1; Sample.m2] true
                            Sample.good_world).2).1 with
                | Ok rv => Some rv
                | Raise _ => None
                end)
  = [Sample.m2; Sample.m3].
Proof.
  rewrite (positive_limit_lists_latest Sample.strptime
             (lazy_execute [Sample.m1; Sample.m2] true Sample.good_world).2
             (default ∅ (history (db (lazy_execute [Sample.m1; Sample.m2] true
                                        Sample.good_world).2)))
             Sample.good_dir
             (λ f, match parse_filename Sample.strptime f with
                   | Ok p => p.1
                   | Raise _ => Datetime 0 0 0 0 0 0 0
                   end) 1).
  - vm_compute. reflexivity.
  - vm_compute. reflexivity.
  - reflexivity.
  - lia.
  - intros f Hf. vm_compute in Hf.
    destruct Hf as [Hf%list_elem_of_In|Hf%list_elem_of_In]; simpl in Hf;
      destruct_or!; try done; subst f; eexists; vm_compute; reflexivity.
Defined.

(** A limit that does not fit 64 bits is refused by the driver. *)
Example history_limit_overflow :
  (list_all_migrations Sample.strptime (Some (2 ^ 63)) Sample.good_world).1 =
    Raise (OverflowError "Python int too large to convert to SQLite INTEGER").
Proof. vm_compute. reflexivity. Qed.

(** ** The first run of [init] *)



